(** * Tracker-Desktop: occlusion-tolerant tracker, distance summarizer and
      batch orchestrator, embedded from [backend_python/tracking].

    Python integers are [Z] ([//] and [%] with a positive divisor are
    [Z.div] and [Z.modulo]); strings are [string]; exceptions are values of
    [exn] carried by [outcome].  The OpenCV collaborators (decoding,
    segmentation, contour extraction) are inputs: a frame arrives as the
    list of contours [cv2.findContours] returned for it.  Python floats in
    the distance formula are idealised as real numbers (no rounding, no
    overflow). *)

From Stdlib Require Import ZArith List String Ascii Bool Lia QArith.
From Stdlib Require Import DecimalString DecimalN Permutation Sorted Reals Lra.
Import ListNotations.

Local Open Scope string_scope.
Local Open Scope list_scope.
Local Open Scope Z_scope.

(** ** Exceptions and results *)

Inductive exn_class :=
| KeyError | ValueError | TypeError | ZeroDivisionError
| OSError | CvError | RuntimeError.

(** Every class above derives from Python's [Exception]. *)
Record exn := Exn { exn_cls : exn_class; exn_msg : string }.

Inductive outcome (A : Type) :=
| Returned (a : A)
| Raised (e : exn).
Arguments Returned {A} a.
Arguments Raised {A} e.

(** ** Text helpers (str formatting, os.path on POSIX paths) *)

Module Text.

Definition digits (n : Z) : string :=
  NilZero.string_of_uint (N.to_uint (Z.to_N n)).

Fixpoint zeros (k : nat) : string :=
  match k with O => "" | S k' => String "0" (zeros k') end.

Definition zfill (width : nat) (s : string) : string :=
  (zeros (width - String.length s) ++ s)%string.

(** [f'{n:0w}'] for an int: sign-aware zero padding to [w] columns. *)
Definition fmt_int (width : nat) (n : Z) : string :=
  if n <? 0 then ("-" ++ zfill (width - 1) (digits (- n)))%string
  else zfill width (digits n).

(** [str.lower] on ASCII letters; other bytes are left as they are. *)
Definition lower_ascii (c : ascii) : ascii :=
  let n := nat_of_ascii c in
  if (Nat.leb 65 n && Nat.leb n 90)%bool then ascii_of_nat (n + 32) else c.

Fixpoint lower (s : string) : string :=
  match s with
  | EmptyString => EmptyString
  | String c r => String (lower_ascii c) (lower r)
  end.

Fixpoint rev_string (s : string) : string :=
  match s with
  | EmptyString => EmptyString
  | String c r => (rev_string r ++ String c EmptyString)%string
  end.

Definition endswith (s suffix : string) : bool :=
  String.prefix (rev_string suffix) (rev_string s).

(** Split at the last occurrence of [c]: the text before it and after it. *)
Fixpoint split_last (c : ascii) (s : string) : option (string * string) :=
  match s with
  | EmptyString => None
  | String a r =>
      match split_last c r with
      | Some (h, t) => Some (String a h, t)
      | None => if Ascii.eqb a c then Some (EmptyString, r) else None
      end
  end.

Fixpoint all_dots (s : string) : bool :=
  match s with
  | EmptyString => true
  | String a r => Ascii.eqb a "." && all_dots r
  end.

Definition starts_with_slash (s : string) : bool :=
  match s with String "/" _ => true | _ => false end.

Definition ends_with_slash (s : string) : bool :=
  starts_with_slash (rev_string s).

(** [posixpath.basename] *)
Definition basename (p : string) : string :=
  match split_last "/" p with Some (_, t) => t | None => p end.

(** [posixpath.join] of two components *)
Definition join (a b : string) : string :=
  if starts_with_slash b then b
  else if (String.eqb a "" || ends_with_slash a)%bool then (a ++ b)%string
  else (a ++ "/" ++ b)%string.

Fixpoint rstrip_slash_rev (r : string) : string :=
  match r with
  | String "/" r' => rstrip_slash_rev r'
  | _ => r
  end.

(** [posixpath.dirname]: the head up to the last slash, trailing slashes
    removed unless the head is made of slashes only. *)
Definition dirname (p : string) : string :=
  match split_last "/" p with
  | None => ""
  | Some (h, _) =>
      let head := (h ++ "/")%string in
      match rstrip_slash_rev (rev_string head) with
      | EmptyString => head
      | r => rev_string r
      end
  end.

(** The file-name part of [posixpath.splitext]: the extension starts at
    the last dot, unless only dots precede it. *)
Definition splitext_name (file : string) : string * string :=
  match split_last "." file with
  | Some (stem, ext) =>
      if all_dots stem then (file, "")
      else (stem, String "." ext)
  | None => (file, "")
  end.

(** [posixpath.splitext] *)
Definition splitext (p : string) : string * string :=
  match split_last "/" p with
  | Some (d, file) =>
      let '(stem, ext) := splitext_name file in
      ((d ++ "/" ++ stem)%string, ext)
  | None => splitext_name p
  end.

(** The white space [int] passes over in ASCII text: tab, line feed,
    vertical tab, form feed, carriage return and space. *)
Definition is_space (c : ascii) : bool :=
  let n := nat_of_ascii c in
  ((Nat.leb 9 n && Nat.leb n 13) || Nat.eqb n 32)%bool.

Fixpoint lstrip (s : string) : string :=
  match s with
  | EmptyString => EmptyString
  | String c r => if is_space c then lstrip r else s
  end.

Definition strip (s : string) : string :=
  rev_string (lstrip (rev_string (lstrip s))).

Definition digit_val (c : ascii) : option Z :=
  let n := nat_of_ascii c in
  if (Nat.leb 48 n && Nat.leb n 57)%bool then Some (Z.of_nat (n - 48))
  else None.

(** Decimal digits, single underscores allowed between two digits. *)
Fixpoint parse_digits (s : string) (acc : Z) (after_digit : bool) : option Z :=
  match s with
  | EmptyString => if after_digit then Some acc else None
  | String c r =>
      match digit_val c with
      | Some d => parse_digits r (10 * acc + d) true
      | None =>
          if (Ascii.eqb c "_" && after_digit)%bool then parse_digits r acc false
          else None
      end
  end.

(** [int(s)] on ASCII text: surrounding white space, an optional sign,
    decimal digits.  [None] stands for [ValueError].  Digits and spaces
    outside ASCII and the bound newer interpreters put on the number of
    digits are not modelled. *)
Definition parse_int (s : string) : option Z :=
  match strip s with
  | String "-" r => option_map Z.opp (parse_digits r 0 false)
  | String "+" r => parse_digits r 0 false
  | t => parse_digits t 0 false
  end.

Definition newline : string := String (ascii_of_nat 10) EmptyString.

End Text.

(** ** tracker.py : FishTracker *)

Module Tracker.

Definition BBox := (Z * Z * Z * Z)%type.

(** One contour as the collaborators report it: [cv2.contourArea] and
    [cv2.boundingRect]. *)
Record Contour := { area : Q; rect : BBox }.

(** A decoded frame after lines 49-55 of [process_frame]: the external
    contours of the cleaned mask, in enumeration order, and the reading
    [current_time_ms] gives while the frame is handled. *)
Record Frame := { contours : list Contour; clock_ms : Z }.

Definition TrailRow := (string * Z * Z)%type.

Record FishTracker := {
  last_bbox : option BBox;
  no_movement_frames : Z;
  max_no_movement_frames : Z;
  centroid_data : list TrailRow;
  positions : list (Z * Z);
  start_time : Z
}.

(** [__init__]: the fields the state machine reads. *)
Definition init (now : Z) : FishTracker :=
  {| last_bbox := None;
     no_movement_frames := 0;
     max_no_movement_frames := 10;
     centroid_data := [];
     positions := [];
     start_time := now |}.

Definition format_time (ms : Z) : string :=
  let seconds := ms / 1000 in
  let minutes := seconds / 60 in
  let hours := minutes / 60 in
  let milliseconds := ms mod 1000 in
  (Text.fmt_int 2 hours ++ ":" ++ Text.fmt_int 2 (minutes mod 60) ++ ":"
    ++ Text.fmt_int 2 (seconds mod 60) ++ ":" ++ Text.fmt_int 3 milliseconds)%string.

Definition log_centroid (now cx cy : Z) (t : FishTracker) : FishTracker :=
  let t_ms := now - start_time t in
  let timestamp := format_time t_ms in
  {| last_bbox := last_bbox t;
     no_movement_frames := no_movement_frames t;
     max_no_movement_frames := max_no_movement_frames t;
     centroid_data := centroid_data t ++ [(timestamp, cx, cy)];
     positions := positions t ++ [(cx, cy)];
     start_time := start_time t |}.

Definition set_last_bbox (b : BBox) (t : FishTracker) : FishTracker :=
  {| last_bbox := Some b;
     no_movement_frames := no_movement_frames t;
     max_no_movement_frames := max_no_movement_frames t;
     centroid_data := centroid_data t;
     positions := positions t;
     start_time := start_time t |}.

Definition set_no_movement_frames (n : Z) (t : FishTracker) : FishTracker :=
  {| last_bbox := last_bbox t;
     no_movement_frames := n;
     max_no_movement_frames := max_no_movement_frames t;
     centroid_data := centroid_data t;
     positions := positions t;
     start_time := start_time t |}.

(** [cx, cy = x + w // 2, y + h // 2] *)
Definition centroid (b : BBox) : Z * Z :=
  let '(x, y, w, h) := b in (x + w / 2, y + h / 2).

(** The [for cnt in contours] loop: skip areas below 500, stop at the
    first contour that is kept. *)
Fixpoint first_region (cs : list Contour) : option BBox :=
  match cs with
  | [] => None
  | cnt :: rest =>
      if negb (Qle_bool 500 (area cnt)) then first_region rest
      else Some (rect cnt)
  end.

Definition detects (f : Frame) : bool :=
  match first_region (contours f) with Some _ => true | None => false end.

(** The second branch's guard once [detected] is false:
    [self.last_bbox and self.no_movement_frames <= self.max_no_movement_frames]. *)
Definition holds_position (t : FishTracker) : bool :=
  match last_bbox t with
  | Some _ => no_movement_frames t <=? max_no_movement_frames t
  | None => false
  end.

Definition process_frame (t : FishTracker) (f : Frame) : FishTracker :=
  let now := clock_ms f in
  match first_region (contours f) with
  | Some b =>
      let '(cx, cy) := centroid b in
      let t1 := set_last_bbox b (log_centroid now cx cy t) in
      (* detected: the [elif] arm *)
      set_no_movement_frames 0 t1
  | None =>
      match last_bbox t with
      | Some b =>
          if no_movement_frames t <=? max_no_movement_frames t then
            let '(cx, cy) := centroid b in
            let t1 := log_centroid now cx cy t in
            set_no_movement_frames (no_movement_frames t1 + 1) t1
          else t
      | None => t
      end
  end.

(** Feeding decoded frames in order, as [run] does. *)
Definition feed (t : FishTracker) (fs : list Frame) : FishTracker :=
  fold_left process_frame fs t.

(** A frame with no contour at all, read at clock value [now]. *)
Definition blank (now : Z) : Frame := {| contours := []; clock_ms := now |}.

(** A frame showing one region of area 900 with bounding box [b]. *)
Definition sighting (b : BBox) (now : Z) : Frame :=
  {| contours := [ {| area := 900 # 1; rect := b |} ]; clock_ms := now |}.

(** The rows a run of held positions appends: one per frame, stamped with
    that frame's clock, all at the centroid of [b]. *)
Definition held_rows (t : FishTracker) (b : BBox) (fs : list Frame)
  : list TrailRow :=
  map (fun f => (format_time (clock_ms f - start_time t),
                 fst (centroid b), snd (centroid b))) fs.

Definition trail_xy (row : TrailRow) : Z * Z :=
  let '(_, x, y) := row in (x, y).

End Tracker.


(** ** distance_calculator.py *)

Module Distance.

(** What [cv2.VideoCapture(video_path)] reports: [isOpened()] and the
    integer parts of the two frame-size properties. *)
Record VideoInfo := {
  is_opened : bool;
  frame_width : Z;
  frame_height : Z
}.

(** A CSV file as [csv.reader] hands it over: the first record (the field
    names) and the records after it. *)
Record Table := {
  fieldnames : list string;
  records : list (list string)
}.

(** A row of [csv.DictReader]: the assignments made to the dict, in order;
    a later assignment to a key replaces an earlier one.  The value is
    [None] for a field the record is too short to fill ([restval]). *)
Definition Row := list (string * option string).

Fixpoint zip_fields (names : list string) (rec : list string) : Row :=
  match names, rec with
  | k :: names', v :: rec' => (k, Some v) :: zip_fields names' rec'
  | _, _ => []
  end.

(** [d = dict(zip(fieldnames, row))], then [d[key] = restval] for the
    field names past the record's length.  The [restkey] entry of a long
    record has the key [None] and is never read by this program. *)
Definition dict_row (names : list string) (rec : list string) : Row :=
  zip_fields names rec
  ++ map (fun k => (k, None)) (skipn (List.length rec) names).

Definition is_blank (rec : list string) : bool :=
  match rec with [] => true | _ => false end.

(** The rows [DictReader] yields: blank records are passed over. *)
Definition dict_rows (tb : Table) : list Row :=
  map (dict_row (fieldnames tb))
      (filter (fun rec => negb (is_blank rec)) (records tb)).

Fixpoint lookup_last (key : string) (d : Row) (found : option (option string))
  : option (option string) :=
  match d with
  | [] => found
  | (k, v) :: rest =>
      lookup_last key rest (if String.eqb k key then Some v else found)
  end.

(** [row[key]] *)
Definition getitem (d : Row) (key : string) : outcome (option string) :=
  match lookup_last key d None with
  | Some v => Returned v
  | None => Raised (Exn KeyError key)
  end.

(** [int(v)] for a field value: [None] is a [TypeError], text that is not
    an integer literal a [ValueError]. *)
Definition py_int (v : option string) : outcome Z :=
  match v with
  | None => Raised (Exn TypeError "int() argument must be a string, a bytes-like object or a real number, not 'NoneType'")
  | Some s =>
      match Text.parse_int s with
      | Some n => Returned n
      | None => Raised (Exn ValueError "invalid literal for int() with base 10")
      end
  end.

(** Lines 44-45: [x = int(row['Centroid_X'])], [y = int(row['Centroid_Y'])]. *)
Definition row_point (row : Row) : outcome (Z * Z) :=
  match getitem row "Centroid_X" with
  | Raised e => Raised e
  | Returned vx =>
      match py_int vx with
      | Raised e => Raised e
      | Returned x =>
          match getitem row "Centroid_Y" with
          | Raised e => Raised e
          | Returned vy =>
              match py_int vy with
              | Raised e => Raised e
              | Returned y => Returned (x, y)
              end
          end
      end
  end.

(** [except (KeyError, ValueError)] *)
Definition is_row_error (e : exn) : bool :=
  match exn_cls e with
  | KeyError | ValueError => true
  | _ => false
  end.

(** The [for idx, row in enumerate(reader)] loop of lines 40-49.  The
    diagnostic prints are not part of the value and are left out. *)
Fixpoint scan_rows (frame_skip idx : Z) (rows : list Row) (points : list (Z * Z))
  : outcome (list (Z * Z)) :=
  match rows with
  | [] => Returned points
  | row :: rest =>
      if frame_skip =? 0 then
        Raised (Exn ZeroDivisionError "integer modulo by zero")
      else if negb (idx mod frame_skip =? 0) then
        scan_rows frame_skip (idx + 1) rest points
      else
        match row_point row with
        | Returned p => scan_rows frame_skip (idx + 1) rest (points ++ [p])
        | Raised e =>
            if is_row_error e then scan_rows frame_skip (idx + 1) rest points
            else Raised e
        end
  end.

(** Lines 36-52.  [csv] is what opening and reading [csv_path] gives: the
    table, or the exception [open] raised.  Any exception inside the outer
    [try] ends in [return None]. *)
Definition read_points (csv : outcome Table) (frame_skip : Z)
  : option (list (Z * Z)) :=
  match csv with
  | Raised _ => None
  | Returned tb =>
      match scan_rows frame_skip 0 (dict_rows tb) [] with
      | Returned points => Some points
      | Raised _ => None
      end
  end.

Definition point_at (points : list (Z * Z)) (i : nat) : Z * Z :=
  nth i points (0, 0).

(** [math.sqrt((p[i][0] - p[i-1][0]) ** 2 + (p[i][1] - p[i-1][1]) ** 2)] *)
Definition hop (points : list (Z * Z)) (i : nat) : R :=
  let p := point_at points i in
  let q := point_at points (i - 1) in
  sqrt (IZR ((fst p - fst q) ^ 2 + (snd p - snd q) ^ 2)).

(** [sum(... for i in range(1, len(points)))] *)
Definition total_pixel_distance (points : list (Z * Z)) : R :=
  fold_left (fun acc i => (acc + hop points i)%R)
            (seq 1 (List.length points - 1)) 0%R.

Definition calculate_total_distance
    (csv : outcome Table) (video : VideoInfo)
    (real_width_cm real_height_cm : R) (frame_skip : Z)
  : outcome (option R) :=
  if negb (is_opened video) then Returned None
  else
    match read_points csv frame_skip with
    | None => Returned None
    | Some points =>
        if (List.length points <? 2)%nat then Returned (Some 0%R)
        else if frame_width video =? 0 then
          Raised (Exn ZeroDivisionError "division by zero")
        else if frame_height video =? 0 then
          Raised (Exn ZeroDivisionError "division by zero")
        else
          let pixel_to_cm_x := (real_width_cm / IZR (frame_width video))%R in
          let pixel_to_cm_y := (real_height_cm / IZR (frame_height video))%R in
          let pixel_to_cm := ((pixel_to_cm_x + pixel_to_cm_y) / 2)%R in
          Returned (Some (total_pixel_distance points * pixel_to_cm)%R)
    end.

(** The defaults of the signature: 28 cm, 14 cm, every 60th row. *)
Definition calculate_total_distance_default
    (csv : outcome Table) (video : VideoInfo) : outcome (option R) :=
  calculate_total_distance csv video 28%R 14%R 60.

(** *** Reference notions the claims are stated with *)

(** The rows whose 0-based index, counted from [idx], is a multiple of
    [frame_skip]. *)
Fixpoint sampled_from (frame_skip idx : Z) (rows : list Row) : list Row :=
  match rows with
  | [] => []
  | row :: rest =>
      if idx mod frame_skip =? 0
      then row :: sampled_from frame_skip (idx + 1) rest
      else sampled_from frame_skip (idx + 1) rest
  end.

Definition sampled (frame_skip : Z) (rows : list Row) : list Row :=
  sampled_from frame_skip 0 rows.

(** Validity filtering of kept rows: a row with a [KeyError] or
    [ValueError] is dropped, any other exception ends the reading. *)
Fixpoint usable_points (rows : list Row) : outcome (list (Z * Z)) :=
  match rows with
  | [] => Returned []
  | row :: rest =>
      match row_point row with
      | Returned p =>
          match usable_points rest with
          | Returned ps => Returned (p :: ps)
          | Raised e => Raised e
          end
      | Raised e => if is_row_error e then usable_points rest else Raised e
      end
  end.

(** Euclidean distance between two pixel positions. *)
Definition euclid (p q : Z * Z) : R :=
  sqrt ((IZR (fst q) - IZR (fst p)) ^ 2 + (IZR (snd q) - IZR (snd p)) ^ 2)%R.

(** Sum of the distances between consecutive points. *)
Fixpoint path_length (points : list (Z * Z)) : R :=
  match points with
  | p :: ((q :: _) as rest) => (euclid p q + path_length rest)%R
  | _ => 0%R
  end.

(** The average of the two per-axis scale factors. *)
Definition scale (real_width_cm real_height_cm : R) (video : VideoInfo) : R :=
  ((real_width_cm / IZR (frame_width video)
    + real_height_cm / IZR (frame_height video)) / 2)%R.

End Distance.

(** ** distance_calculator.py : calculate_summary *)

Module Summary.
Import Distance.

(** The part of the file system [calculate_summary] looks at. *)
Record Files := {
  path_exists : string -> bool;          (* os.path.exists *)
  listdir : string -> list string;       (* os.listdir, in listing order *)
  video_at : string -> VideoInfo;        (* cv2.VideoCapture(path) *)
  csv_at : string -> outcome Table       (* open(path) read by csv.reader *)
}.

(** The second column of a summary row: the distance (written with two
    decimals by the code) or the literal marker [Error]. *)
Inductive Cell :=
| Centimetres (d : R)
| ErrorMarker.

Definition SummaryRow := (string * Cell)%type.

Definition videos_dir_of (output_root : string) (videos_dir : option string)
  : string :=
  match videos_dir with
  | Some d => d
  | None => Text.join (Text.dirname output_root) "videos"
  end.

Definition is_csv_name (f : string) : bool :=
  Text.endswith (Text.lower f) ".csv".

(** The paired video of a trajectory file: [<stem>.mp4] in the videos
    directory (line 100). *)
Definition paired_video (videos_dir csv_file : string) : string :=
  let name := fst (Text.splitext csv_file) in
  Text.join videos_dir (name ++ ".mp4")%string.

(** The [for csv_file in csv_files] loop of lines 98-111. *)
Fixpoint summarize (fs : Files) (data_dir videos_dir : string)
    (csv_files : list string) (results : list SummaryRow)
  : outcome (list SummaryRow) :=
  match csv_files with
  | [] => Returned results
  | csv_file :: rest =>
      let name := fst (Text.splitext csv_file) in
      let video_path := Text.join videos_dir (name ++ ".mp4")%string in
      let csv_path := Text.join data_dir csv_file in
      if negb (path_exists fs video_path) then
        summarize fs data_dir videos_dir rest results
      else
        match calculate_total_distance_default
                (csv_at fs csv_path) (video_at fs video_path) with
        | Raised e => Raised e
        | Returned (Some distance) =>
            summarize fs data_dir videos_dir rest
                      (results ++ [(name, Centimetres distance)])
        | Returned None =>
            summarize fs data_dir videos_dir rest
                      (results ++ [(name, ErrorMarker)])
        end
  end.

(** The result: [None], or the path of the summary file together with the
    rows written under its header. *)
Definition calculate_summary (fs : Files) (output_root : string)
    (videos_dir : option string)
  : outcome (option (string * list SummaryRow)) :=
  let data_dir := Text.join output_root "data" in
  let videos_dir := videos_dir_of output_root videos_dir in
  let summary_csv := Text.join output_root "distance_summary.csv" in
  if (negb (path_exists fs data_dir) || negb (path_exists fs videos_dir))%bool
  then Returned None
  else
    let csv_files := filter is_csv_name (listdir fs data_dir) in
    match csv_files with
    | [] => Returned None
    | _ =>
        match summarize fs data_dir videos_dir csv_files [] with
        | Raised e => Raised e
        | Returned results => Returned (Some (summary_csv, results))
        end
    end.

(** The names in the first column of the rows written. *)
Definition summary_names (r : outcome (option (string * list SummaryRow)))
  : list string :=
  match r with
  | Returned (Some (_, rows)) => map fst rows
  | _ => []
  end.

End Summary.

(** ** tracker.py ([run], [save_results]) and tracker_wrapper.py *)

Module Pipeline.
Import Tracker.

(** What one job does to the outside world, in order. *)
Inductive Event :=
| MakeDirs (path : string)
| Print (text : string)
| WriteCsv (path : string) (header : list string) (rows : list TrailRow)
| WriteImage (path : string) (stamped : list (Z * Z)).

(** A computation: the events it caused, and how it ended. *)
Definition Comp (A : Type) : Type := (list Event * outcome A)%type.

Definition ret {A} (a : A) : Comp A := ([], Returned a).
Definition raise {A} (e : exn) : Comp A := ([], Raised e).
Definition emit (ev : Event) : Comp unit := ([ev], Returned tt).

Definition bind {A B} (c : Comp A) (k : A -> Comp B) : Comp B :=
  match c with
  | (evs, Returned a) => let '(evs', r) := k a in (evs ++ evs', r)
  | (evs, Raised e) => (evs, Raised e)
  end.

Notation "x <- c ;; k" := (bind c (fun x => k))
  (at level 61, c at next level, right associativity).
Notation "c ;;; k" := (bind c (fun _ => k))
  (at level 61, right associativity).

(** An operation of a collaborator that either succeeds or raises. *)
Definition guard (fault : option exn) : Comp unit :=
  match fault with
  | None => ret tt
  | Some e => raise e
  end.

(** [try: body except Exception as e: handler(e)] *)
Definition try_except {A} (body : Comp A) (handler : exn -> Comp A) : Comp A :=
  match body with
  | (evs, Raised e) => let '(evs', r) := handler e in (evs ++ evs', r)
  | done => done
  end.

(** One frame [cap.read()] returned with [ret] true: its height and width
    ([frame.shape[0]], [frame.shape[1]]), the contours lines 49-55 of
    [process_frame] extract from it (or the exception an OpenCV call
    raised there), and the clock while it is handled. *)
Record Decoded := {
  shape : Z * Z;
  segmented : outcome (list Contour);
  read_clock : Z
}.

(** [cv2.VideoCapture(video_path)]: whether it opened, and the frames it
    delivers before [read()] reports the end. *)
Record Capture := {
  cap_opened : bool;
  reads : list Decoded
}.

(** Everything outside the program one job meets. *)
Record JobEnv := {
  meipass : option string;          (* sys._MEIPASS, when bundled *)
  cwd : string;                     (* os.path.abspath(".") *)
  clock0 : Z;                       (* current_time_ms() in __init__ *)
  capture : Capture;
  makedirs_data : option exn;       (* os.makedirs(<out>/data, exist_ok=True) *)
  makedirs_heatmaps : option exn;   (* os.makedirs(<out>/heatmaps, ...) *)
  csv_open : option exn;            (* open(csv_path, 'w') and the writes *)
  render : option exn               (* the OpenCV calls of lines 109-122 *)
}.

(** The tracker object between [__init__] and [save_results]. *)
Record Job := {
  video_path : string;
  output_dir : string;
  state : FishTracker;
  valid_frame : option (Z * Z)      (* the shape of the last frame read *)
}.

Definition get_resource_path (env : JobEnv) (relative_path : string) : string :=
  let base_path := match meipass env with Some p => p | None => cwd env end in
  Text.join base_path relative_path.

(** [FishTracker.__init__] with [show_window=False] *)
Definition new_tracker (env : JobEnv) (video_path output_dir : string)
  : Comp Job :=
  emit (MakeDirs (Text.join output_dir "data")) ;;;
  guard (makedirs_data env) ;;;
  emit (MakeDirs (Text.join output_dir "heatmaps")) ;;;
  guard (makedirs_heatmaps env) ;;;
  ret {| video_path := video_path;
         output_dir := output_dir;
         state := Tracker.init (clock0 env);
         valid_frame := None |}.

(** The body of the [while] loop of [run] for the frames read. *)
Fixpoint run_frames (frames : list Decoded) (j : Job) : Comp Job :=
  match frames with
  | [] => ret j
  | d :: rest =>
      let j1 := {| video_path := video_path j;
                   output_dir := output_dir j;
                   state := state j;
                   valid_frame := Some (shape d) |} in
      match segmented d with
      | Raised e => raise e
      | Returned cs =>
          let f := {| contours := cs; clock_ms := read_clock d |} in
          run_frames rest
            {| video_path := video_path j1;
               output_dir := output_dir j1;
               state := process_frame (state j1) f;
               valid_frame := valid_frame j1 |}
      end
  end.

(** [FishTracker.run]: nothing is read from a capture that is not open. *)
Definition run (env : JobEnv) (j : Job) : Comp Job :=
  if cap_opened (capture env) then run_frames (reads (capture env)) j
  else ret j.

(** The positions stamped on the heatmap (line 111). *)
Definition in_frame (sh : Z * Z) (p : Z * Z) : bool :=
  let '(rows, cols) := sh in
  let '(x, y) := p in
  ((0 <=? y) && (y <? rows) && (0 <=? x) && (x <? cols))%bool.

Definition csv_header : list string :=
  ["Time_hh:mm:ss:ms"; "Centroid_X"; "Centroid_Y"].

Definition save_results (env : JobEnv) (j : Job) : Comp unit :=
  match valid_frame j with
  | None => emit (Print "No valid frame captured.")
  | Some sh =>
      let video_name := fst (Text.splitext (Text.basename (video_path j))) in
      let csv_path :=
        Text.join (Text.join (output_dir j) "data") (video_name ++ ".csv")%string in
      guard (csv_open env) ;;;
      emit (WriteCsv csv_path csv_header (centroid_data (state j))) ;;;
      guard (render env) ;;;
      let heatmap_path :=
        Text.join (Text.join (output_dir j) "heatmaps")
                  (video_name ++ ".png")%string in
      emit (WriteImage heatmap_path
                       (filter (in_frame sh) (positions (state j)))) ;;;
      emit (Print ("Results saved:" ++ Text.newline ++ "  CSV: " ++ csv_path
                   ++ Text.newline ++ "  Heatmap: " ++ heatmap_path)%string)
  end.

Definition success_message (video_path : string) : string :=
  ("✅ Success: " ++ Text.basename video_path)%string.

Definition failure_message (video_path : string) (e : exn) : string :=
  ("❌ Failed: " ++ Text.basename video_path ++ " with error: " ++ exn_msg e)%string.

(** The [try] block of [process_video]. *)
Definition process_video_body (env : JobEnv) (video_path output_dir : string)
  : Comp string :=
  let video_path := get_resource_path env video_path in
  let output_dir := get_resource_path env output_dir in
  tracker <- new_tracker env video_path output_dir ;;
  tracker <- run env tracker ;;
  save_results env tracker ;;;
  ret (success_message video_path).

Definition process_video (env : JobEnv) (video_path output_dir : string)
  : Comp string :=
  try_except (process_video_body env video_path output_dir)
    (fun e => ret (failure_message (get_resource_path env video_path) e)).

(** Whether a job wrote a trajectory table or an image. *)
Definition is_write (ev : Event) : bool :=
  match ev with
  | WriteCsv _ _ _ | WriteImage _ _ => true
  | _ => false
  end.

End Pipeline.

(** ** No_GUI.py : run_tracking *)

Module Batch.
Import Pipeline.

Definition BATCH_SIZE : nat := 10.

(** What one invocation meets: the folders, what each job meets (by video
    path), the order in which the worker pool completes the jobs of a
    batch, and the time stamp put in the log's name. *)
Record Site := {
  isdir : string -> bool;
  listdir : string -> list string;
  job_env : string -> JobEnv;
  as_completed : list string -> list string;
  started_at : string
}.

Inductive RunEnd :=
| SysExit (printed : list string) (code : Z)
| Finished (printed : list string) (log_filename : string)
           (logfile : list string) (effects : list (string * list Event)).

Definition is_video_name (f : string) : bool :=
  let l := Text.lower f in
  (Text.endswith l ".mp4" || Text.endswith l ".avi" || Text.endswith l ".mov")%bool.

Fixpoint insert_sorted (s : string) (l : list string) : list string :=
  match l with
  | [] => [s]
  | h :: t => if String.leb s h then s :: l else h :: insert_sorted s t
  end.

(** [sorted] on strings *)
Definition sorted (l : list string) : list string :=
  fold_right insert_sorted [] l.

Definition discover (site : Site) (video_folder : string) : list string :=
  sorted (map (Text.join video_folder)
              (filter is_video_name (listdir site video_folder))).

(** [', '.join(names)] *)
Definition join_names (names : list string) : string :=
  String.concat ", " names.

(** [video_files[batch_start:batch_start + BATCH_SIZE]] for the values of
    [range(0, total, BATCH_SIZE)]. *)
Definition batches (video_files : list string) : list (list string) :=
  map (fun k => firstn BATCH_SIZE (skipn (k * BATCH_SIZE) video_files))
      (seq 0 ((List.length video_files + (BATCH_SIZE - 1)) / BATCH_SIZE)).

(** Lines 49-53: the line logged for a completed future. *)
Definition job_line (video : string) (r : outcome string) : string :=
  let video_name := Text.basename video in
  match r with
  | Returned result => ("✅ Completed " ++ video_name ++ ": " ++ result)%string
  | Raised e => ("❌ Error with " ++ video_name ++ ": " ++ exn_msg e)%string
  end.

(** The job submitted for one video: [process_video(video, output_folder)]. *)
Definition submit (site : Site) (output_folder video : string) : Comp string :=
  process_video (job_env site video) video output_folder.

Definition completion_line (site : Site) (output_folder video : string) : string :=
  job_line video (snd (submit site output_folder video)).

Record BatchLog := {
  batch_printed : list string;
  batch_logged : list string;
  batch_effects : list (string * list Event)
}.

(** One pass of the [for batch_start] loop. *)
Definition run_batch (site : Site) (output_folder : string) (batch : list string)
  : BatchLog :=
  let batch_names := map Text.basename batch in
  let start := (Text.newline ++ "▶️ Starting batch: " ++ join_names batch_names)%string in
  let done := as_completed site batch in
  let msgs := map (completion_line site output_folder) done in
  let finish := ("✔️ Finished batch: " ++ join_names batch_names)%string in
  {| batch_printed := [start] ++ msgs ++ [finish];
     batch_logged :=
       [(start ++ Text.newline)%string]
       ++ map (fun m => (m ++ Text.newline)%string) msgs
       ++ [(finish ++ Text.newline)%string];
     batch_effects :=
       map (fun v => (v, fst (submit site output_folder v))) done |}.

Definition run_tracking (site : Site) (video_folder output_folder : string)
  : RunEnd :=
  if negb (isdir site video_folder) then
    SysExit [("❌ Input folder not found: " ++ video_folder)%string] 1
  else if negb (isdir site output_folder) then
    SysExit [("❌ Output folder not found: " ++ output_folder)%string] 1
  else
    let video_files := discover site video_folder in
    match video_files with
    | [] => SysExit ["❌ No video files found in input folder."] 1
    | _ =>
        let found :=
          ("🔍 Found " ++ Text.digits (Z.of_nat (List.length video_files))
           ++ " videos:")%string
          :: map (fun v => ("  • " ++ Text.basename v)%string) video_files in
        let log_filename :=
          Text.join output_folder
                    ("batch_log_" ++ started_at site ++ ".txt")%string in
        let logs := map (run_batch site output_folder) (batches video_files) in
        Finished
          (found ++ flat_map batch_printed logs
           ++ [(Text.newline ++ "🎯 Tracking complete! Log saved to:"
                ++ Text.newline ++ log_filename)%string])
          log_filename
          (flat_map batch_logged logs)
          (flat_map batch_effects logs)
    end.

End Batch.

(** ** Concrete inputs used by the examples *)

Module Examples.
Import Distance.

Definition vga : VideoInfo :=
  {| is_opened := true; frame_width := 640; frame_height := 480 |}.

Definition trajectory_row (x y : string) : list string :=
  ["00:00:00:001"; x; y].

(** Five well-formed rows. *)
Definition five_rows : Table :=
  {| fieldnames := Pipeline.csv_header;
     records := [trajectory_row "0" "0"; trajectory_row "1" "1";
                 trajectory_row "3" "4"; trajectory_row "9" "9";
                 trajectory_row "6" "8"] |}.

(** The points of rows 0, 2 and 4 of [five_rows]. *)
Definition every_other_point : list (Z * Z) := [(0, 0); (3, 4); (6, 8)].

(** A table whose only row stops after [Centroid_X], as a file cut short
    while it was being written does. *)
Definition short_row_table : Table :=
  {| fieldnames := Pipeline.csv_header;
     records := [["00:00:00:001"; "5"]] |}.

(** A table with one well-formed row. *)
Definition one_row_table : Table :=
  {| fieldnames := Pipeline.csv_header;
     records := [trajectory_row "5" "7"] |}.

(** A capture that cannot be opened, every other operation succeeding. *)
Definition unopenable_env : Pipeline.JobEnv :=
  {| Pipeline.meipass := None;
     Pipeline.cwd := "/work";
     Pipeline.clock0 := 0;
     Pipeline.capture := {| Pipeline.cap_opened := false; Pipeline.reads := [] |};
     Pipeline.makedirs_data := None;
     Pipeline.makedirs_heatmaps := None;
     Pipeline.csv_open := None;
     Pipeline.render := None |}.

(** A capture that opens and delivers one 480 x 640 frame showing one
    region. *)
Definition one_frame_env : Pipeline.JobEnv :=
  {| Pipeline.meipass := None;
     Pipeline.cwd := "/work";
     Pipeline.clock0 := 0;
     Pipeline.capture :=
       {| Pipeline.cap_opened := true;
          Pipeline.reads :=
            [ {| Pipeline.shape := (480, 640);
                 Pipeline.segmented :=
                   Returned [ {| Tracker.area := 900 # 1;
                                 Tracker.rect := (10, 20, 7, 9) |} ];
                 Pipeline.read_clock := 1 |} ] |};
     Pipeline.makedirs_data := None;
     Pipeline.makedirs_heatmaps := None;
     Pipeline.csv_open := None;
     Pipeline.render := None |}.

(** A capture whose second frame makes an OpenCV call raise. *)
Definition faulty_env : Pipeline.JobEnv :=
  {| Pipeline.meipass := None;
     Pipeline.cwd := "/work";
     Pipeline.clock0 := 0;
     Pipeline.capture :=
       {| Pipeline.cap_opened := true;
          Pipeline.reads :=
            [ {| Pipeline.shape := (480, 640);
                 Pipeline.segmented := Returned [];
                 Pipeline.read_clock := 1 |};
              {| Pipeline.shape := (480, 640);
                 Pipeline.segmented := Raised (Exn CvError "bad frame");
                 Pipeline.read_clock := 2 |} ] |};
     Pipeline.makedirs_data := None;
     Pipeline.makedirs_heatmaps := None;
     Pipeline.csv_open := None;
     Pipeline.render := None |}.

(** A videos folder holding [clip.avi], which tracks, and a file
    [clip.mp4] that does not open; the output folder is its sibling. *)
Definition two_clips : Batch.Site :=
  {| Batch.isdir := fun p => (String.eqb p "/work/videos" || String.eqb p "/work/out")%bool;
     Batch.listdir := fun _ => ["clip.mp4"; "clip.avi"];
     Batch.job_env := fun v =>
       if String.eqb v "/work/videos/clip.avi" then one_frame_env
       else unopenable_env;
     Batch.as_completed := fun batch => rev batch;
     Batch.started_at := "2025-01-01_00-00-00" |}.

(** Three videos in one batch; the job of the second one meets a frame
    on which an OpenCV call raises. *)
Definition three_jobs : Batch.Site :=
  {| Batch.isdir := fun _ => true;
     Batch.listdir := fun _ => ["a.mp4"; "b.mp4"; "c.mp4"];
     Batch.job_env := fun v =>
       if String.eqb v "videos/b.mp4" then faulty_env else one_frame_env;
     Batch.as_completed := fun batch => rev batch;
     Batch.started_at := "2025-01-01_00-00-00" |}.

(** The folders after that run: one trajectory file, written by the job
    of [clip.avi]. *)
Definition after_two_clips : Summary.Files :=
  {| Summary.path_exists := fun p =>
       existsb (String.eqb p)
               ["/work/out"; "/work/out/data"; "/work/videos";
                "/work/videos/clip.avi"; "/work/videos/clip.mp4"];
     Summary.listdir := fun _ => ["clip.csv"];
     Summary.video_at := fun p =>
       if String.eqb p "/work/videos/clip.avi" then vga
       else {| is_opened := false; frame_width := 0; frame_height := 0 |};
     Summary.csv_at := fun _ =>
       Returned {| fieldnames := Pipeline.csv_header;
                   records := [["00:00:00:001"; "13"; "24"]] |} |}.

End Examples.

(** ** Further notions used to state properties of the code *)

Module Notions.
Import Tracker.

(** The bounding box of the most recent frame with a qualifying region. *)
Definition last_sighting (fs : list Frame) : option BBox :=
  fold_left (fun acc f =>
               match first_region (contours f) with
               | Some b => Some b
               | None => acc
               end) fs None.

(** A list obtained from another by dropping elements, order kept. *)
Inductive Subseq {A : Type} : list A -> list A -> Prop :=
| Subseq_nil : Subseq [] []
| Subseq_keep (x : A) (l l' : list A) : Subseq l l' -> Subseq (x :: l) (x :: l')
| Subseq_drop (x : A) (l l' : list A) : Subseq l l' -> Subseq l (x :: l').

(** Text made of decimal digits only. *)
Fixpoint all_digits (s : string) : bool :=
  match s with
  | EmptyString => true
  | String c r =>
      match Text.digit_val c with
      | Some _ => all_digits r
      | None => false
      end
  end.

(** [str(n)] for an int. *)
Definition py_str (n : Z) : string :=
  if n <? 0 then ("-" ++ Text.digits (- n))%string else Text.digits n.

(** The record [csv.writer] makes of a trail row [[timestamp, cx, cy]]:
    the text as it is, the integers through [str]. *)
Definition csv_record (row : TrailRow) : list string :=
  let '(timestamp, cx, cy) := row in [timestamp; py_str cx; py_str cy].

(** The table [save_results] writes (lines 104-107), as [csv.reader] gives
    it back. *)
Definition written_table (rows : list TrailRow) : Distance.Table :=
  {| Distance.fieldnames := Pipeline.csv_header;
     Distance.records := map csv_record rows |}.

(** A frame read and segmented without fault. *)
Definition good_read (r : (Z * Z) * list Contour * Z) : Pipeline.Decoded :=
  let '(sh, cs, now) := r in
  {| Pipeline.shape := sh;
     Pipeline.segmented := Returned cs;
     Pipeline.read_clock := now |}.

Definition frame_of (r : (Z * Z) * list Contour * Z) : Frame :=
  let '(_, cs, now) := r in {| contours := cs; clock_ms := now |}.

(** The shape of the last frame of a run, [start] when there is none. *)
Definition last_shape (start : option (Z * Z))
    (l : list ((Z * Z) * list Contour * Z)) : option (Z * Z) :=
  fold_left (fun _ r => Some (fst (fst r))) l start.

(** The cell written for the result of one distance computation. *)
Definition distance_of_cell (c : Summary.Cell) : option R :=
  match c with
  | Summary.Centimetres d => Some d
  | Summary.ErrorMarker => None
  end.

(** The order [sorted] puts strings in. *)
Definition string_le (a b : string) : Prop := String.leb a b = true.

(** The name of a trajectory file without its extension (line 99). *)
Definition stem (csv_file : string) : string := fst (Text.splitext csv_file).

(** What links a listed trajectory file to the row written for it: the
    name is the stem, the cell records what the distance computation for
    the pair returned. *)
Definition row_for (fs : Summary.Files) (data_dir videos_dir : string)
    (csv_file : string) (row : Summary.SummaryRow) : Prop :=
  fst row = stem csv_file
  /\ Distance.calculate_total_distance_default
       (Summary.csv_at fs (Text.join data_dir csv_file))
       (Summary.video_at fs (Summary.paired_video videos_dir csv_file))
     = Returned (distance_of_cell (snd row)).

(** The output folder of a run whose only trajectory file holds two
    positions, beside a video that opens but reports a frame width of 0. *)
Definition zero_width_files : Summary.Files :=
  {| Summary.path_exists := fun _ => true;
     Summary.listdir := fun _ => ["clip.csv"];
     Summary.video_at := fun _ =>
       {| Distance.is_opened := true;
          Distance.frame_width := 0;
          Distance.frame_height := 480 |};
     Summary.csv_at := fun _ =>
       Returned (written_table (("00:00:00:001", 13, 24)
                                :: repeat ("00:00:00:002", 13, 24) 59
                                ++ [("00:00:01:000", 20, 30)])) |}.

End Notions.

(** ** The files a run leaves *)

Module Disk.
Import Tracker Pipeline Batch.

Inductive FileContent :=
| CsvFile (header : list string) (rows : list TrailRow)
| ImageFile (stamped : list (Z * Z)).

(** The output folders: what each path holds, if anything. *)
Definition Files : Type := string -> option FileContent.











(** What the job of a video did, as [run_batch] records it. *)
Definition job_record (site : Site) (output_folder video : string)
  : string * list Event :=
  (video, fst (submit site output_folder video)).

End Disk.

Module SameStem.
Import Pipeline.





End SameStem.
(** ** The tracker state machine *)

Module TrackerFacts.
Import Tracker.

Lemma centroid_eta (b : BBox) : centroid b = (fst (centroid b), snd (centroid b)).
Proof. destruct (centroid b); reflexivity. Qed.

Lemma process_frame_detected (t : FishTracker) (f : Frame) (b : BBox) :
  first_region (contours f) = Some b ->
  process_frame t f =
    set_no_movement_frames 0
      (set_last_bbox b
         (log_centroid (clock_ms f) (fst (centroid b)) (snd (centroid b)) t)).
Proof.
  intros Hb. unfold process_frame. rewrite Hb.
  destruct (centroid b); reflexivity.
Qed.

Lemma process_frame_held (t : FishTracker) (f : Frame) (b : BBox) :
  detects f = false ->
  last_bbox t = Some b ->
  no_movement_frames t <= max_no_movement_frames t ->
  process_frame t f =
    set_no_movement_frames (no_movement_frames t + 1)
      (log_centroid (clock_ms f) (fst (centroid b)) (snd (centroid b)) t).
Proof.
  unfold detects, process_frame. intros Hd Hb Hle.
  destruct (first_region (contours f)); [discriminate|].
  rewrite Hb. apply Z.leb_le in Hle. rewrite Hle.
  destruct (centroid b); reflexivity.
Qed.

Lemma process_frame_silent (t : FishTracker) (f : Frame) :
  detects f = false ->
  holds_position t = false ->
  process_frame t f = t.
Proof.
  unfold detects, holds_position, process_frame. intros Hd Hh.
  destruct (first_region (contours f)); [discriminate|].
  destruct (last_bbox t); [|reflexivity].
  rewrite Hh. reflexivity.
Qed.

(** An uninterrupted run of frames without a qualifying region, started
    with [last_bbox = Some b]: the first [max + 1 - streak] frames of the
    run each append one held row, the later ones append nothing. *)
Lemma feed_occlusion_run (fs : list Frame) :
  forall (t : FishTracker) (b : BBox),
    last_bbox t = Some b ->
    Forall (fun f => detects f = false) fs ->
    let k := Z.to_nat (max_no_movement_frames t + 1 - no_movement_frames t) in
    let t' := feed t fs in
    centroid_data t' = centroid_data t ++ held_rows t b (firstn k fs)
    /\ positions t' = positions t ++ repeat (centroid b) (Nat.min k (List.length fs))
    /\ no_movement_frames t' =
         no_movement_frames t + Z.of_nat (Nat.min k (List.length fs))
    /\ last_bbox t' = Some b
    /\ max_no_movement_frames t' = max_no_movement_frames t
    /\ start_time t' = start_time t.
Proof.
  induction fs as [|f fs IH]; intros t b Hb Hall; cbn zeta.
  - cbn [feed fold_left List.length]. rewrite firstn_nil, Nat.min_0_r. cbn.
    rewrite !app_nil_r, Z.add_0_r. repeat split; assumption.
  - inversion Hall as [|? ? Hf Hfs]; subst.
    change (feed t (f :: fs)) with (feed (process_frame t f) fs).
    destruct (Z_le_gt_dec (no_movement_frames t) (max_no_movement_frames t))
      as [Hle|Hgt].
    + rewrite (process_frame_held t f b Hf Hb Hle).
      set (t1 := set_no_movement_frames _ _).
      assert (Hb1 : last_bbox t1 = Some b) by exact Hb.
      specialize (IH t1 b Hb1 Hfs). cbn zeta in IH.
      destruct IH as (Hc & Hp & Hn & Hl & Hm & Hs).
      change (max_no_movement_frames t1) with (max_no_movement_frames t) in *.
      change (no_movement_frames t1) with (no_movement_frames t + 1) in *.
      change (start_time t1) with (start_time t) in *.
      replace (Z.to_nat (max_no_movement_frames t + 1 - no_movement_frames t))
        with (S (Z.to_nat (max_no_movement_frames t + 1
                           - (no_movement_frames t + 1)))) by lia.
      set (k := Z.to_nat _) in *.
      cbn [firstn List.length Nat.min repeat].
      rewrite Hc, Hp, Hn. cbn [t1 set_no_movement_frames log_centroid
        centroid_data positions held_rows map].
      rewrite <- !app_assoc. cbn [app].
      rewrite <- centroid_eta.
      repeat split; try assumption; try reflexivity. lia.
    + assert (Hh : holds_position t = false).
      { unfold holds_position. rewrite Hb. apply Z.leb_gt. lia. }
      rewrite (process_frame_silent t f Hf Hh).
      specialize (IH t b Hb Hfs). cbn zeta in IH.
      replace (Z.to_nat (max_no_movement_frames t + 1 - no_movement_frames t))
        with O in * by lia.
      cbn [firstn Nat.min] in *. exact IH.
Qed.

(** The streak counter is never negative in a state the tracker reaches. *)
Lemma streak_step_nonneg (t : FishTracker) (f : Frame) :
  0 <= no_movement_frames t -> 0 <= no_movement_frames (process_frame t f).
Proof.
  intros H. unfold process_frame.
  destruct (first_region (contours f)) as [b|].
  - destruct (centroid b); cbn; lia.
  - destruct (last_bbox t) as [b|]; [|exact H].
    destruct (no_movement_frames t <=? max_no_movement_frames t); [|exact H].
    destruct (centroid b); cbn; lia.
Qed.

Lemma streak_nonneg_reachable (now : Z) (fs : list Frame) :
  0 <= no_movement_frames (feed (init now) fs).
Proof.
  unfold feed.
  assert (H : 0 <= no_movement_frames (init now)) by (cbn; lia).
  revert H. generalize (init now).
  induction fs as [|f fs IH]; intros t H; cbn [fold_left]; [exact H|].
  apply IH, streak_step_nonneg, H.
Qed.

(** [positions] is the coordinate projection of [centroid_data]. *)
Lemma positions_follow_trail (now : Z) (fs : list Frame) :
  positions (feed (init now) fs)
  = map trail_xy (centroid_data (feed (init now) fs)).
Proof.
  unfold feed.
  assert (H : positions (init now) = map trail_xy (centroid_data (init now)))
    by reflexivity.
  revert H. generalize (init now).
  induction fs as [|f fs IH]; intros t H; cbn [fold_left]; [exact H|].
  apply IH. unfold process_frame.
  destruct (first_region (contours f)) as [b|].
  - destruct (centroid b); cbn. rewrite map_app, H. reflexivity.
  - destruct (last_bbox t) as [b|]; [|exact H].
    destruct (no_movement_frames t <=? max_no_movement_frames t); [|exact H].
    destruct (centroid b); cbn. rewrite map_app, H. reflexivity.
Qed.

(** Past the budget: a run of more than [max + 1] frames without a region,
    right after a detection, holds the position for [max + 1] frames. *)
Lemma occlusion_run_emits_budget_plus_one
    (t : FishTracker) (f0 : Frame) (b : BBox) (fs : list Frame) :
  first_region (contours f0) = Some b ->
  Forall (fun f => detects f = false) fs ->
  0 <= max_no_movement_frames t ->
  max_no_movement_frames t < Z.of_nat (List.length fs) ->
  let t1 := process_frame t f0 in
  positions (feed t1 fs)
  = positions t1 ++ repeat (centroid b) (S (Z.to_nat (max_no_movement_frames t))).
Proof.
  intros Hb Hall Hm HK t1.
  assert (Hl : last_bbox t1 = Some b).
  { unfold t1. rewrite (process_frame_detected t f0 b Hb). reflexivity. }
  destruct (feed_occlusion_run fs t1 b Hl Hall) as (_ & Hp & _).
  rewrite Hp. f_equal. f_equal.
  unfold t1. rewrite (process_frame_detected t f0 b Hb). cbn. lia.
Qed.

End TrackerFacts.

(** ** Claims on the tracker state machine *)

Module TrackerClaims.
Import Tracker TrackerFacts.

(** C1 (the code departs from the claim).  A detection followed by twelve
    frames without a qualifying region, with the default budget of 10:
    the tracker holds the position for eleven frames, one more than
    [max_no_movement_frames], before the trail falls silent.  The guard
    [no_movement_frames <= max_no_movement_frames] is tested with the
    counter starting at 0. *)
Theorem C1_occlusion_budget_overrun :
  let run := sighting (10, 20, 7, 9) 0 :: map blank [1;2;3;4;5;6;7;8;9;10;11;12] in
  let t := feed (init 0) run in
  max_no_movement_frames t = 10
  /\ positions t = (13, 24) :: repeat (13, 24) 11
  /\ List.length (centroid_data t) = 12%nat
  /\ no_movement_frames t = 11.
Proof. vm_compute. repeat split; reflexivity. Qed.

(** C3.  After a true detection with bounding box [b], a run of K frames
    without a qualifying region, 1 <= K <= max_no_movement_frames, appends
    exactly K trail rows, every one at the centroid of [b]; the next true
    detection appends the new centroid and leaves the streak at 0. *)
Theorem C3_occlusion_tolerance
    (t : FishTracker) (f0 : Frame) (b : BBox) (fs : list Frame)
    (g : Frame) (b' : BBox) :
  first_region (contours f0) = Some b ->
  Forall (fun f => detects f = false) fs ->
  (1 <= List.length fs)%nat ->
  Z.of_nat (List.length fs) <= max_no_movement_frames t ->
  first_region (contours g) = Some b' ->
  let t1 := process_frame t f0 in
  let t2 := feed t1 fs in
  let t3 := process_frame t2 g in
  centroid_data t2 = centroid_data t1 ++ held_rows t b fs
  /\ positions t2 = positions t1 ++ repeat (centroid b) (List.length fs)
  /\ no_movement_frames t2 = Z.of_nat (List.length fs)
  /\ centroid_data t3 =
       centroid_data t2
       ++ [(format_time (clock_ms g - start_time t),
            fst (centroid b'), snd (centroid b'))]
  /\ positions t3 = positions t2 ++ [centroid b']
  /\ last_bbox t3 = Some b'
  /\ no_movement_frames t3 = 0.
Proof.
  intros Hb Hall HK1 HK Hb' t1 t2 t3.
  assert (Ht1 : t1 = set_no_movement_frames 0
                       (set_last_bbox b
                          (log_centroid (clock_ms f0) (fst (centroid b))
                                        (snd (centroid b)) t)))
    by (apply process_frame_detected; exact Hb).
  assert (Hl : last_bbox t1 = Some b) by (rewrite Ht1; reflexivity).
  assert (Hm : max_no_movement_frames t1 = max_no_movement_frames t)
    by (rewrite Ht1; reflexivity).
  assert (Hn : no_movement_frames t1 = 0) by (rewrite Ht1; reflexivity).
  assert (Hs : start_time t1 = start_time t) by (rewrite Ht1; reflexivity).
  destruct (feed_occlusion_run fs t1 b Hl Hall) as (Hc & Hp & Hk & _ & _ & Hs2).
  fold t2 in Hc, Hp, Hk, Hs2.
  rewrite Hm, Hn in Hc, Hp, Hk.
  assert (Hmin : Nat.min (Z.to_nat (max_no_movement_frames t + 1 - 0))
                         (List.length fs) = List.length fs) by lia.
  rewrite Hmin in Hp, Hk.
  rewrite firstn_all2 in Hc by lia.
  assert (Hrows : held_rows t1 b fs = held_rows t b fs)
    by (unfold held_rows; rewrite Hs; reflexivity).
  rewrite Hrows in Hc.
  assert (Ht3 : t3 = set_no_movement_frames 0
                       (set_last_bbox b'
                          (log_centroid (clock_ms g) (fst (centroid b'))
                                        (snd (centroid b')) t2)))
    by (apply process_frame_detected; exact Hb').
  split; [exact Hc|]. split; [exact Hp|]. split; [lia|].
  split; [|split; [|split]].
  - rewrite Ht3. cbn. rewrite Hs2, Hs. reflexivity.
  - rewrite Ht3. cbn. rewrite <- centroid_eta. reflexivity.
  - rewrite Ht3. reflexivity.
  - rewrite Ht3. reflexivity.
Qed.

Lemma C3_occlusion_tolerance_witness :
  let t := init 0 in
  let fs := [blank 1; blank 2; blank 3] in
  let t2 := feed (process_frame t (sighting (10, 20, 7, 9) 0)) fs in
  let t3 := process_frame t2 (sighting (40, 50, 8, 6) 4) in
  positions t2 = [(13, 24); (13, 24); (13, 24); (13, 24)]
  /\ positions t3 = positions t2 ++ [(44, 53)]
  /\ no_movement_frames t3 = 0.
Proof.
  intros t fs t2 t3.
  assert (Hfs : Forall (fun f => detects f = false) fs)
    by (repeat constructor).
  assert (HK1 : (1 <= List.length fs)%nat) by (cbn; lia).
  assert (HK : Z.of_nat (List.length fs) <= max_no_movement_frames t)
    by (cbn; lia).
  destruct (C3_occlusion_tolerance t (sighting (10, 20, 7, 9) 0) (10, 20, 7, 9)
              fs (sighting (40, 50, 8, 6) 4) (40, 50, 8, 6)
              eq_refl Hfs HK1 HK eq_refl)
    as (_ & Hp2 & _ & _ & Hp3 & _ & Hn3).
  split; [exact Hp2 | split; [exact Hp3 | exact Hn3]].
Defined.

(** C4.  One step of the state machine from a state whose streak is not
    negative: the streak is still not negative; it is 0 after a frame with
    a detection; it changes on a frame without detection only by going up
    by one, and then a held row at the centroid of [last_bbox] was
    appended; when no row is appended on a frame without detection the
    streak is unchanged. *)
Theorem C4_streak_invariant (t : FishTracker) (f : Frame) :
  0 <= no_movement_frames t ->
  let t' := process_frame t f in
  0 <= no_movement_frames t'
  /\ (detects f = true -> no_movement_frames t' = 0)
  /\ (detects f = false ->
      no_movement_frames t' <> no_movement_frames t ->
      no_movement_frames t' = no_movement_frames t + 1
      /\ exists b,
           last_bbox t = Some b
           /\ centroid_data t' =
                centroid_data t
                ++ [(format_time (clock_ms f - start_time t),
                     fst (centroid b), snd (centroid b))])
  /\ (detects f = false ->
      centroid_data t' = centroid_data t ->
      no_movement_frames t' = no_movement_frames t).
Proof.
  intros Hnn t'. split; [apply streak_step_nonneg; exact Hnn|].
  split; [|split].
  - unfold detects. intros Hd. subst t'.
    destruct (first_region (contours f)) as [b|] eqn:Hb; [|discriminate].
    rewrite (process_frame_detected t f b Hb). reflexivity.
  - intros Hd Hne. subst t'.
    destruct (holds_position t) eqn:Hh.
    + unfold holds_position in Hh.
      destruct (last_bbox t) as [b|] eqn:Hb; [|discriminate].
      apply Z.leb_le in Hh.
      rewrite (process_frame_held t f b Hd Hb Hh).
      split; [reflexivity|]. exists b. split; reflexivity.
    + rewrite (process_frame_silent t f Hd Hh) in Hne. contradiction.
  - intros Hd Hsame. subst t'.
    destruct (holds_position t) eqn:Hh.
    + unfold holds_position in Hh.
      destruct (last_bbox t) as [b|] eqn:Hb; [|discriminate].
      apply Z.leb_le in Hh.
      rewrite (process_frame_held t f b Hd Hb Hh) in Hsame.
      cbn in Hsame.
      apply (f_equal (@List.length _)) in Hsame.
      rewrite length_app in Hsame. cbn in Hsame. lia.
    + rewrite (process_frame_silent t f Hd Hh). reflexivity.
Qed.

Lemma C4_streak_invariant_witness :
  let t := process_frame (init 0) (sighting (10, 20, 7, 9) 0) in
  0 <= no_movement_frames (process_frame t (blank 1))
  /\ no_movement_frames (process_frame t (blank 1)) = 1
  /\ no_movement_frames (process_frame t (sighting (1, 2, 3, 4) 1)) = 0.
Proof.
  intros t.
  assert (H0 : 0 <= no_movement_frames t) by (cbn; lia).
  destruct (C4_streak_invariant t (blank 1) H0) as (Hnn & _ & Hup & _).
  destruct (C4_streak_invariant t (sighting (1, 2, 3, 4) 1) H0)
    as (_ & Hzero & _).
  split; [exact Hnn|]. split.
  - destruct (Hup eq_refl) as (Hinc & _); [cbn; lia|]. exact Hinc.
  - exact (Hzero eq_refl).
Defined.

End TrackerClaims.

(** ** The distance computation *)

Module DistanceFacts.
Import Distance.

Lemma filter_none {A : Type} (p : A -> bool) (l : list A) :
  (forall x, In x l -> p x = false) -> filter p l = [].
Proof.
  induction l as [|a l IH]; intros H; cbn [filter]; [reflexivity|].
  rewrite (H a (or_introl eq_refl)). apply IH.
  intros x Hx. apply H. right. exact Hx.
Qed.

(** The loop accumulates onto [points] what validity filtering keeps of
    the sampled rows. *)
Lemma scan_rows_sampled (frame_skip : Z) (rows : list Row) :
  frame_skip <> 0 ->
  forall idx points,
    scan_rows frame_skip idx rows points
    = match usable_points (sampled_from frame_skip idx rows) with
      | Returned ps => Returned (points ++ ps)
      | Raised e => Raised e
      end.
Proof.
  intros Hfs. apply Z.eqb_neq in Hfs.
  induction rows as [|row rest IH]; intros idx points.
  - cbn. rewrite app_nil_r. reflexivity.
  - cbn [scan_rows sampled_from]. rewrite Hfs.
    destruct (idx mod frame_skip =? 0); cbn [negb].
    + cbn [usable_points].
      destruct (row_point row) as [p|e].
      * rewrite IH.
        destruct (usable_points (sampled_from frame_skip (idx + 1) rest));
          [rewrite <- app_assoc|]; reflexivity.
      * destruct (is_row_error e); [apply IH | reflexivity].
    + apply IH.
Qed.

(** The sampled rows, by index. *)
Lemma sampled_from_indices (frame_skip : Z) (rows : list Row) :
  forall idx,
    sampled_from frame_skip idx rows
    = map (fun i => nth i rows [])
          (filter (fun i => (idx + Z.of_nat i) mod frame_skip =? 0)
                  (seq 0 (List.length rows))).
Proof.
  induction rows as [|row rest IH]; intros idx; [reflexivity|].
  cbn [sampled_from List.length]. rewrite <- cons_seq, <- seq_shift.
  cbn [filter]. rewrite filter_map_swap.
  change (idx + Z.of_nat 0) with (idx + 0). rewrite Z.add_0_r.
  assert (Hshift :
    filter (fun a => (idx + Z.of_nat (S a)) mod frame_skip =? 0)
           (seq 0 (List.length rest))
    = filter (fun i => (idx + 1 + Z.of_nat i) mod frame_skip =? 0)
             (seq 0 (List.length rest))).
  { apply filter_ext. intros a. f_equal. f_equal. lia. }
  rewrite Hshift.
  destruct (idx mod frame_skip =? 0); cbn [map nth];
    rewrite map_map; cbn [nth]; rewrite IH; reflexivity.
Qed.

(** In a table of [2 * n + 1] rows the indices divisible by [n] are 0,
    [n] and [2 * n]. *)
Lemma multiples_in_three_strides (n : nat) :
  (0 < n)%nat ->
  filter (fun i => (Z.of_nat i) mod Z.of_nat n =? 0) (seq 0 (2 * n + 1))
  = [0; n; 2 * n]%nat.
Proof.
  intros Hn.
  replace (2 * n + 1)%nat
    with (1 + ((n - 1) + (1 + ((n - 1) + 1))))%nat by lia.
  rewrite !seq_app, !filter_app. cbn [seq filter Nat.add].
  assert (Hgap1 : filter (fun i => (Z.of_nat i) mod Z.of_nat n =? 0)
                         (seq 1 (n - 1)) = []).
  { apply filter_none. intros x Hx. apply in_seq in Hx.
    apply Z.eqb_neq. rewrite Z.mod_small by lia. lia. }
  assert (Hgap2 : filter (fun i => (Z.of_nat i) mod Z.of_nat n =? 0)
                         (seq (S (n - 1 + 1)) (n - 1)) = []).
  { apply filter_none. intros x Hx. apply in_seq in Hx.
    apply Z.eqb_neq.
    rewrite <- (Z.mod_unique (Z.of_nat x) (Z.of_nat n) 1
                  (Z.of_nat x - Z.of_nat n)); lia. }
  rewrite Hgap1, Hgap2.
  replace (S (n - 1 + 1 + (n - 1))) with (2 * n)%nat by lia.
  replace (S (n - 1)) with n by lia.
  replace ((Z.of_nat n) mod Z.of_nat n) with 0
    by (apply Z.mod_unique with (q := 1); lia).
  replace ((Z.of_nat (2 * n)) mod Z.of_nat n) with 0
    by (apply Z.mod_unique with (q := 2); lia).
  reflexivity.
Qed.

(** *** The summation by index is the path length *)

Lemma hop_euclid (p q : Z * Z) (rest : list (Z * Z)) :
  hop (p :: q :: rest) 1 = euclid p q.
Proof.
  unfold hop, point_at, euclid. cbn [nth Nat.sub fst snd]. f_equal.
  rewrite plus_IZR, !Z.pow_2_r, !mult_IZR, !minus_IZR.
  cbn [pow]. ring.
Qed.

Lemma hop_shift (p : Z * Z) (points : list (Z * Z)) (i : nat) :
  (1 <= i)%nat -> hop (p :: points) (S i) = hop points i.
Proof.
  intros Hi. unfold hop, point_at.
  replace (S i - 1)%nat with (S (i - 1)) by lia.
  reflexivity.
Qed.

Lemma fold_hops_acc (points : list (Z * Z)) (l : list nat) (acc : R) :
  fold_left (fun a i => (a + hop points i)%R) l acc
  = (acc + fold_left (fun a i => (a + hop points i)%R) l 0)%R.
Proof.
  revert acc. induction l as [|i l IH]; intros acc; cbn [fold_left].
  - ring.
  - rewrite IH, (IH (0 + hop points i)%R). ring.
Qed.

Lemma fold_hops_shift (p : Z * Z) (points : list (Z * Z)) (l : list nat) (acc : R) :
  Forall (fun i => (1 <= i)%nat) l ->
  fold_left (fun a i => (a + hop (p :: points) i)%R) (map S l) acc
  = fold_left (fun a i => (a + hop points i)%R) l acc.
Proof.
  intros H. revert acc.
  induction H as [|i l Hi _ IH]; intros acc; cbn [map fold_left]; [reflexivity|].
  rewrite (hop_shift p points i Hi). apply IH.
Qed.

Lemma total_pixel_distance_path (points : list (Z * Z)) :
  total_pixel_distance points = path_length points.
Proof.
  induction points as [|p rest IH]; [reflexivity|].
  destruct rest as [|q rest]; [reflexivity|].
  unfold total_pixel_distance in *.
  cbn [List.length Nat.sub] in *.
  rewrite Nat.sub_0_r in *.
  cbn [seq fold_left].
  change (path_length (p :: q :: rest))
    with (euclid p q + path_length (q :: rest))%R.
  rewrite hop_euclid, fold_hops_acc, <- seq_shift.
  rewrite fold_hops_shift.
  - rewrite IH. ring.
  - apply Forall_forall. intros x Hx. apply in_seq in Hx. lia.
Qed.

(** Fewer than two points read: the result is the integer 0. *)
Lemma few_points_zero (csv : outcome Table) (video : VideoInfo)
    (rw rh : R) (frame_skip : Z) (points : list (Z * Z)) :
  is_opened video = true ->
  read_points csv frame_skip = Some points ->
  (List.length points < 2)%nat ->
  calculate_total_distance csv video rw rh frame_skip = Returned (Some 0%R).
Proof.
  intros Ho Hr Hl. unfold calculate_total_distance.
  rewrite Ho, Hr. cbn [negb].
  apply Nat.ltb_lt in Hl. rewrite Hl. reflexivity.
Qed.

Lemma read_points_sampled (tb : Table) (frame_skip : Z) :
  frame_skip <> 0 ->
  read_points (Returned tb) frame_skip
  = match usable_points (sampled frame_skip (dict_rows tb)) with
    | Returned ps => Some ps
    | Raised _ => None
    end.
Proof.
  intros Hfs. unfold read_points, sampled.
  rewrite (scan_rows_sampled frame_skip (dict_rows tb) Hfs).
  destruct (usable_points (sampled_from frame_skip 0 (dict_rows tb)));
    reflexivity.
Qed.

End DistanceFacts.

(** ** Claims on the distance computation *)

Module DistanceClaims.
Import Distance DistanceFacts Examples.

(** C5.  With a non-zero [frame_skip], the points read from a table are
    what validity filtering keeps of exactly the rows whose 0-based index
    is a multiple of [frame_skip]; for a table of 2 * n + 1 rows and
    [frame_skip = n] these are the three rows 0, n and 2 * n. *)
Theorem C5_downsampling (tb : Table) (frame_skip : Z) :
  frame_skip <> 0 ->
  let rows := dict_rows tb in
  let kept :=
    map (fun i => nth i rows [])
        (filter (fun i => Z.of_nat i mod frame_skip =? 0)
                (seq 0 (List.length rows))) in
  scan_rows frame_skip 0 rows [] = usable_points kept
  /\ read_points (Returned tb) frame_skip
     = match usable_points kept with
       | Returned ps => Some ps
       | Raised _ => None
       end
  /\ forall n : nat,
       (0 < n)%nat ->
       frame_skip = Z.of_nat n ->
       List.length rows = (2 * n + 1)%nat ->
       kept = [nth 0 rows []; nth n rows []; nth (2 * n) rows []].
Proof.
  intros Hfs rows kept.
  assert (Hkept : sampled frame_skip rows = kept).
  { unfold sampled. rewrite sampled_from_indices. reflexivity. }
  split; [|split].
  - rewrite (scan_rows_sampled frame_skip rows Hfs).
    fold (sampled frame_skip rows). rewrite Hkept.
    destruct (usable_points kept); reflexivity.
  - rewrite (read_points_sampled tb frame_skip Hfs).
    fold rows. rewrite Hkept. reflexivity.
  - intros n Hn Hskip Hlen. subst kept. rewrite Hlen, Hskip.
    rewrite (multiples_in_three_strides n Hn). reflexivity.
Qed.

Lemma C5_downsampling_witness :
  read_points (Returned five_rows) 2 = Some [(0, 0); (3, 4); (6, 8)]
  /\ map (fun i => nth i (dict_rows five_rows) [])
         (filter (fun i => Z.of_nat i mod 2 =? 0) (seq 0 5))
     = [nth 0 (dict_rows five_rows) []; nth 2 (dict_rows five_rows) [];
        nth 4 (dict_rows five_rows) []].
Proof.
  assert (H2 : 2 <> 0) by lia.
  destruct (C5_downsampling five_rows 2 H2) as (_ & Hread & Hthree).
  split.
  - rewrite Hread. reflexivity.
  - apply (Hthree 2%nat); [lia | reflexivity | reflexivity].
Defined.

(** C6.  For a table that is read without failure and a video that opens
    with non-zero frame dimensions, the distance is the sum of the
    Euclidean distances between consecutive kept points (sampled, then
    validity-filtered), times the mean of [real_width_cm / frame_width]
    and [real_height_cm / frame_height]; the defaults are 28, 14 and
    every 60th row. *)
Theorem C6_distance_formula (tb : Table) (video : VideoInfo)
    (real_width_cm real_height_cm : R) (frame_skip : Z)
    (points : list (Z * Z)) :
  is_opened video = true ->
  frame_width video <> 0 ->
  frame_height video <> 0 ->
  frame_skip <> 0 ->
  usable_points (sampled frame_skip (dict_rows tb)) = Returned points ->
  calculate_total_distance (Returned tb) video
                           real_width_cm real_height_cm frame_skip
  = Returned (Some (path_length points
                    * scale real_width_cm real_height_cm video)%R)
  /\ (frame_skip = 60 ->
      calculate_total_distance_default (Returned tb) video
      = Returned (Some (path_length points * scale 28 14 video)%R)).
Proof.
  intros Ho Hw Hh Hfs Hpts.
  assert (Hread : read_points (Returned tb) frame_skip = Some points)
    by (rewrite (read_points_sampled tb frame_skip Hfs), Hpts; reflexivity).
  assert (Hgen : forall rw rh,
    calculate_total_distance (Returned tb) video rw rh frame_skip
    = Returned (Some (path_length points * scale rw rh video)%R)).
  { intros rw rh. unfold calculate_total_distance.
    rewrite Ho, Hread. cbn [negb].
    destruct (List.length points <? 2)%nat eqn:Hlen.
    - apply Nat.ltb_lt in Hlen.
      assert (H0 : path_length points = 0%R).
      { destruct points as [|p [|q rest]]; cbn in Hlen; try reflexivity; lia. }
      rewrite H0, Rmult_0_l. reflexivity.
    - apply Z.eqb_neq in Hw. apply Z.eqb_neq in Hh. rewrite Hw, Hh.
      rewrite total_pixel_distance_path. reflexivity. }
  split; [apply Hgen|].
  intros H60. unfold calculate_total_distance_default.
  rewrite <- H60. apply Hgen.
Qed.

Lemma C6_distance_formula_witness :
  calculate_total_distance (Returned five_rows) vga 28 14 2
  = Returned (Some (path_length every_other_point * scale 28 14 vga)%R).
Proof.
  apply (C6_distance_formula five_rows vga 28%R 14%R 2 every_other_point).
  - reflexivity.
  - cbn; lia.
  - cbn; lia.
  - lia.
  - reflexivity.
Defined.

(** When the kept rows are read without failure and fewer than two points
    remain, the distance is 0. *)
Lemma few_usable_points_zero (tb : Table) (video : VideoInfo)
    (rw rh : R) (frame_skip : Z) (points : list (Z * Z)) :
  is_opened video = true ->
  frame_skip <> 0 ->
  usable_points (sampled frame_skip (dict_rows tb)) = Returned points ->
  (List.length points < 2)%nat ->
  calculate_total_distance (Returned tb) video rw rh frame_skip
  = Returned (Some 0%R).
Proof.
  intros Ho Hfs Hpts Hlen.
  apply (few_points_zero _ video rw rh frame_skip points Ho); [|exact Hlen].
  rewrite (read_points_sampled tb frame_skip Hfs), Hpts. reflexivity.
Qed.

Example one_row_zero_distance :
  calculate_total_distance_default (Returned one_row_table) vga
  = Returned (Some 0%R).
Proof. reflexivity. Qed.

(** A field a short record leaves unfilled reads as [None]; [int(None)]
    is a [TypeError], which the row-level handler does not catch. *)
Lemma short_row_type_error :
  exists e,
    row_point (dict_row Pipeline.csv_header ["00:00:00:001"; "5"]) = Raised e
    /\ exn_cls e = TypeError
    /\ is_row_error e = false.
Proof. eexists. repeat split. Qed.

(** C7 (the code departs from the claim).  A table whose single row lacks
    the [Centroid_Y] field leaves no usable point, yet the computation
    reports the unavailable result [None] and not the distance 0. *)
Theorem C7_short_row_is_failure :
  getitem (dict_row Pipeline.csv_header ["00:00:00:001"; "5"]) "Centroid_Y"
  = Returned None
  /\ read_points (Returned short_row_table) 60 = None
  /\ calculate_total_distance_default (Returned short_row_table) vga
     = Returned None.
Proof. repeat split. Qed.

End DistanceClaims.

(** ** Paths *)

Module TextFacts.
Import Text.

Lemma append_nil_r (s : string) : (s ++ "")%string = s.
Proof. induction s as [|c s IH]; cbn; [|rewrite IH]; reflexivity. Qed.

Lemma append_assoc (a b c : string) :
  ((a ++ b) ++ c)%string = (a ++ (b ++ c))%string.
Proof. induction a as [|x a IH]; cbn; [|rewrite IH]; reflexivity. Qed.

Lemma rev_string_app (a b : string) :
  rev_string (a ++ b) = (rev_string b ++ rev_string a)%string.
Proof.
  induction a as [|x a IH]; cbn.
  - rewrite append_nil_r. reflexivity.
  - rewrite IH, append_assoc. reflexivity.
Qed.

Lemma rev_string_involutive (s : string) : rev_string (rev_string s) = s.
Proof.
  induction s as [|c s IH]; cbn; [reflexivity|].
  rewrite rev_string_app, IH. reflexivity.
Qed.

Lemma ends_with_slash_inv (a : string) :
  ends_with_slash a = true -> exists a', a = (a' ++ "/")%string.
Proof.
  unfold ends_with_slash, starts_with_slash. intros H.
  destruct (rev_string a) as [|c r] eqn:Hr; [discriminate|].
  destruct c as [[] [] [] [] [] [] [] []]; try discriminate.
  exists (rev_string r).
  rewrite <- (rev_string_involutive a), Hr. reflexivity.
Qed.

(** The text after a slash determines the base name. *)
Lemma split_last_after_slash (x y : string) :
  exists h, split_last "/" (x ++ String "/" y) = Some (h, basename y).
Proof.
  induction x as [|a x [h IH]].
  - cbn [append split_last]. unfold basename.
    destruct (split_last "/" y) as [[h t]|].
    + exists (String "/" h). reflexivity.
    + exists EmptyString. reflexivity.
  - exists (String a h). cbn [append split_last]. rewrite IH. reflexivity.
Qed.

Lemma basename_after_slash (x y : string) :
  basename (x ++ String "/" y) = basename y.
Proof.
  destruct (split_last_after_slash x y) as [h Hh].
  unfold basename at 1. rewrite Hh. reflexivity.
Qed.

Lemma basename_join (a b : string) : basename (join a b) = basename b.
Proof.
  unfold join.
  destruct (starts_with_slash b); [reflexivity|].
  destruct (String.eqb a "") eqn:Ha; cbn [orb].
  - apply String.eqb_eq in Ha. subst a. reflexivity.
  - destruct (ends_with_slash a) eqn:He.
    + destruct (ends_with_slash_inv a He) as [a' ->].
      rewrite append_assoc. apply basename_after_slash.
    + apply basename_after_slash.
Qed.

End TextFacts.

(** ** The per-video pipeline *)

Module PipelineFacts.
Import Tracker Pipeline.

Lemma bind_returned {A B} (c : Comp A) (k : A -> Comp B) evs b :
  bind c k = (evs, Returned b) ->
  exists evs1 a evs2,
    c = (evs1, Returned a) /\ k a = (evs2, Returned b) /\ evs = evs1 ++ evs2.
Proof.
  unfold bind. destruct c as [evs1 [a|e]]; [|discriminate].
  destruct (k a) as [evs2 r] eqn:Hk. intros H. inversion H; subst.
  exists evs1, a, evs2. repeat split. exact Hk.
Qed.

(** [process_video] turns an exception of its body into the failure
    message and passes a returned value through. *)
Lemma process_video_cases (env : JobEnv) (video output : string) :
  process_video env video output
  = match process_video_body env video output with
    | (evs, Returned s) => (evs, Returned s)
    | (evs, Raised e) =>
        (evs, Returned (failure_message (get_resource_path env video) e))
    end.
Proof.
  unfold process_video, try_except.
  destruct (process_video_body env video output) as [evs [s|e]];
    [reflexivity|].
  cbn. rewrite app_nil_r. reflexivity.
Qed.

(** The only value the body returns is the success message. *)
Lemma body_returns_success (env : JobEnv) (video output : string) evs s :
  process_video_body env video output = (evs, Returned s) ->
  s = success_message (get_resource_path env video).
Proof.
  unfold process_video_body. intros H.
  apply bind_returned in H. destruct H as (e1 & j1 & e2 & _ & H & _).
  apply bind_returned in H. destruct H as (e3 & j2 & e4 & _ & H & _).
  apply bind_returned in H. destruct H as (e5 & u & e6 & _ & H & _).
  unfold ret in H. inversion H. reflexivity.
Qed.

Lemma get_resource_path_basename (env : JobEnv) (p : string) :
  Text.basename (get_resource_path env p) = Text.basename p.
Proof. unfold get_resource_path. apply TextFacts.basename_join. Qed.

(** With both directories created, a capture that does not open or that
    delivers no frame leaves the tracker without a valid frame. *)
Lemma no_frame_no_results (env : JobEnv) (video output : string) :
  makedirs_data env = None ->
  makedirs_heatmaps env = None ->
  cap_opened (capture env) = false \/ reads (capture env) = [] ->
  process_video_body env video output
  = ([MakeDirs (Text.join (get_resource_path env output) "data");
      MakeDirs (Text.join (get_resource_path env output) "heatmaps");
      Print "No valid frame captured."],
     Returned (success_message (get_resource_path env video))).
Proof.
  intros Hd Hh Hcap.
  unfold process_video_body, new_tracker, run.
  rewrite Hd, Hh.
  destruct Hcap as [Hc|Hc]; rewrite Hc.
  - reflexivity.
  - destruct (cap_opened (capture env)); reflexivity.
Qed.

End PipelineFacts.

(** ** The batch run *)

Module BatchFacts.
Import Pipeline Batch.

Lemma chunks_concat (n : nat) :
  forall l : list string,
    (List.length l <= n * BATCH_SIZE)%nat ->
    List.concat (map (fun k => firstn BATCH_SIZE (skipn (k * BATCH_SIZE) l))
                (seq 0 n)) = l.
Proof.
  induction n as [|n IH]; intros l Hl.
  - destruct l; [reflexivity | cbn in Hl; lia].
  - rewrite <- cons_seq, <- seq_shift. cbn [map List.concat].
    rewrite map_map.
    change (skipn (0 * BATCH_SIZE) l) with l.
    transitivity (firstn BATCH_SIZE l ++ skipn BATCH_SIZE l);
      [|apply firstn_skipn].
    f_equal.
    transitivity
      (List.concat
         (map (fun k => firstn BATCH_SIZE
                          (skipn (k * BATCH_SIZE) (skipn BATCH_SIZE l)))
              (seq 0 n))).
    + f_equal. apply map_ext. intros k. f_equal.
      rewrite skipn_skipn. f_equal. unfold BATCH_SIZE. lia.
    + apply IH. rewrite length_skipn. unfold BATCH_SIZE in *. lia.
Qed.

(** The batches, laid end to end, are the list of videos. *)
Lemma batches_concat (l : list string) : List.concat (batches l) = l.
Proof.
  unfold batches. apply chunks_concat.
  pose proof (Nat.div_mod_eq (List.length l + (BATCH_SIZE - 1)) BATCH_SIZE) as Hd.
  pose proof (Nat.mod_upper_bound (List.length l + (BATCH_SIZE - 1)) BATCH_SIZE) as Hm.
  unfold BATCH_SIZE in *. lia.
Qed.

Lemma flat_map_permutation {A : Type} (f : list A -> list A) (ls : list (list A)) :
  (forall b, Permutation (f b) b) ->
  Permutation (flat_map f ls) (List.concat ls).
Proof.
  intros Hf. induction ls as [|b ls IH]; cbn; [constructor|].
  apply Permutation_app; [apply Hf | exact IH].
Qed.

Lemma batch_effects_videos (site : Site) (output : string) (batch : list string) :
  map fst (batch_effects (run_batch site output batch)) = as_completed site batch.
Proof.
  cbn. rewrite map_map. cbn. apply map_id.
Qed.

Lemma effects_videos (site : Site) (output : string) (bs : list (list string)) :
  map fst (flat_map batch_effects (map (run_batch site output) bs))
  = flat_map (as_completed site) bs.
Proof.
  induction bs as [|b bs IH]; [reflexivity|].
  cbn [map flat_map]. rewrite map_app, IH, batch_effects_videos. reflexivity.
Qed.

Lemma logged_line (site : Site) (output : string) (bs : list (list string))
    (b : list string) (v : string) :
  In b bs -> In v (as_completed site b) ->
  In (completion_line site output v ++ Text.newline)%string
     (flat_map batch_logged (map (run_batch site output) bs)).
Proof.
  intros Hb Hv. apply in_flat_map.
  exists (run_batch site output b). split; [apply in_map; exact Hb|].
  cbn. right. apply in_or_app. left.
  rewrite map_map.
  apply (in_map (fun x => (completion_line site output x ++ Text.newline)%string)).
  exact Hv.
Qed.

End BatchFacts.

(** ** The summary *)

Module SummaryFacts.
Import Distance Summary.

(** The names written are the stems of the trajectory files whose
    [<stem>.mp4] exists, in listing order. *)
Lemma summarize_names (fs : Files) (data_dir videos_dir : string)
    (csv_files : list string) :
  forall results rows,
    summarize fs data_dir videos_dir csv_files results = Returned rows ->
    map fst rows
    = map fst results
      ++ map (fun f => fst (Text.splitext f))
             (filter (fun f => path_exists fs (paired_video videos_dir f))
                     csv_files).
Proof.
  induction csv_files as [|f rest IH]; intros results rows H.
  - cbn in H. inversion H. cbn. rewrite app_nil_r. reflexivity.
  - cbn [summarize] in H. cbn [filter]. unfold paired_video at 1.
    destruct (path_exists fs
                (Text.join videos_dir (fst (Text.splitext f) ++ ".mp4")));
      cbn [negb] in H.
    + destruct (calculate_total_distance_default _ _) as [[d|]|e];
        [| |discriminate];
        apply IH in H; rewrite H, map_app, <- app_assoc; reflexivity.
    + apply IH in H. exact H.
Qed.

End SummaryFacts.

(** ** Claims on the per-video pipeline, the batch run and the summary *)

Module PipelineClaims.
Import Tracker Pipeline Batch Examples PipelineFacts BatchFacts.

(** C2, as stated, fails: for a capture that cannot be opened the
    pipeline prints its diagnostic, writes nothing and hands its caller
    the success message. *)
Lemma C2_unopenable_reports_success :
  cap_opened (capture unopenable_env) = false
  /\ process_video unopenable_env "/work/videos/clip.mp4" "/work/out"
     = ([MakeDirs "/work/out/data"; MakeDirs "/work/out/heatmaps";
         Print "No valid frame captured."],
        Returned "✅ Success: clip.mp4").
Proof. split; reflexivity. Qed.

(** C2, amended.  When the output directories are created and the video
    cannot be opened, or opens and delivers no frame, [save_results]
    prints ["No valid frame captured."] and writes neither the trajectory
    table nor the heatmap; [process_video] then returns its success
    message for that video. *)
Theorem C2_no_frame_skips_writing (env : JobEnv) (video output : string) :
  makedirs_data env = None ->
  makedirs_heatmaps env = None ->
  cap_opened (capture env) = false \/ reads (capture env) = [] ->
  exists evs,
    process_video env video output
    = (evs, Returned ("✅ Success: " ++ Text.basename video)%string)
    /\ filter is_write evs = []
    /\ In (Print "No valid frame captured.") evs.
Proof.
  intros Hd Hh Hcap.
  eexists. rewrite process_video_cases.
  rewrite (no_frame_no_results env video output Hd Hh Hcap).
  unfold success_message. rewrite get_resource_path_basename.
  split; [reflexivity|]. split; [reflexivity|].
  right. right. left. reflexivity.
Qed.

Lemma C2_no_frame_skips_writing_witness :
  exists evs,
    process_video unopenable_env "/work/videos/clip.mp4" "/work/out"
    = (evs, Returned "✅ Success: clip.mp4")
    /\ filter is_write evs = []
    /\ In (Print "No valid frame captured.") evs.
Proof.
  apply (C2_no_frame_skips_writing unopenable_env
           "/work/videos/clip.mp4" "/work/out").
  - reflexivity.
  - reflexivity.
  - left. reflexivity.
Defined.

(** C10.  [process_video] returns a string for every input, the success
    message or the failure message, and never raises; the line the
    orchestrator logs for it is therefore always the completion line,
    with the failure text, when the body raised, inside the returned
    message. *)
Theorem C10_process_video_total (env : JobEnv) (video output : string) :
  (exists evs s,
      process_video env video output = (evs, Returned s)
      /\ (s = ("✅ Success: " ++ Text.basename video)%string
          \/ exists e,
               s = ("❌ Failed: " ++ Text.basename video
                    ++ " with error: " ++ exn_msg e)%string))
  /\ job_line video (snd (process_video env video output))
     = ("✅ Completed " ++ Text.basename video ++ ": "
        ++ match snd (process_video_body env video output) with
           | Returned s => s
           | Raised e =>
               "❌ Failed: " ++ Text.basename video
               ++ " with error: " ++ exn_msg e
           end)%string.
Proof.
  rewrite process_video_cases.
  destruct (process_video_body env video output) as [evs [s|e]] eqn:Hbody.
  - split; [|reflexivity].
    exists evs, s. split; [reflexivity|]. left.
    rewrite (body_returns_success env video output evs s Hbody).
    unfold success_message. rewrite get_resource_path_basename. reflexivity.
  - unfold failure_message. rewrite get_resource_path_basename.
    split; [|reflexivity].
    do 2 eexists. split; [reflexivity|]. right. exists e. reflexivity.
Qed.

End PipelineClaims.

Module SummaryClaims.
Import Distance Summary Examples SummaryFacts.

(** C9, as stated, fails: [clip.csv] is written by the job of [clip.avi]
    alone (the file [clip.mp4] beside it does not open, so its job writes
    nothing), and the summary still lists [clip], paired with
    [clip.mp4]. *)
Lemma C9_avi_trajectory_listed :
  filter Pipeline.is_write
         (fst (Batch.submit two_clips "/work/out" "/work/videos/clip.avi"))
  = [Pipeline.WriteCsv "/work/out/data/clip.csv" Pipeline.csv_header
                       [("00:00:00:001", 13, 24)];
     Pipeline.WriteImage "/work/out/heatmaps/clip.png" [(13, 24)]]
  /\ filter Pipeline.is_write
            (fst (Batch.submit two_clips "/work/out" "/work/videos/clip.mp4"))
     = []
  /\ calculate_summary after_two_clips "/work/out" None
     = Returned (Some ("/work/out/distance_summary.csv",
                       [("clip", ErrorMarker)])).
Proof. repeat split. Qed.

(** C9, amended.  The summarizer pairs a trajectory file only with
    [<stem>.mp4] in the videos directory and, when the summary is written,
    a file is listed in it exactly when that path exists, whatever input
    it was produced from: a trajectory of a [.avi] or [.mov] input is
    passed over as a missing video unless a [<stem>.mp4] exists there as
    well. *)
Theorem C9_summary_pairs_mp4
    (fs : Files) (output_root : string) (videos_dir : option string)
    (summary_csv : string) (rows : list SummaryRow) :
  calculate_summary fs output_root videos_dir
  = Returned (Some (summary_csv, rows)) ->
  let vd := videos_dir_of output_root videos_dir in
  let csv_files :=
    filter is_csv_name (listdir fs (Text.join output_root "data")) in
  map fst rows
  = map (fun f => fst (Text.splitext f))
        (filter (fun f => path_exists fs
                            (Text.join vd (fst (Text.splitext f) ++ ".mp4")))
                csv_files).
Proof.
  intros H vd csv_files. unfold calculate_summary in H.
  destruct (negb (path_exists fs (Text.join output_root "data"))
            || negb (path_exists fs (videos_dir_of output_root videos_dir)))%bool;
    [discriminate|].
  fold csv_files in H. fold vd in H.
  destruct csv_files as [|f rest] eqn:Hcsv; [discriminate|].
  destruct (summarize fs (Text.join output_root "data") vd (f :: rest) [])
    as [results|e] eqn:Hs; [|discriminate].
  inversion H; subst results.
  apply summarize_names in Hs. exact Hs.
Qed.

Lemma C9_summary_pairs_mp4_witness :
  map fst [("clip", ErrorMarker)]
  = map (fun f => fst (Text.splitext f))
        (filter (fun f => path_exists after_two_clips
                            (Text.join "/work/videos"
                                       (fst (Text.splitext f) ++ ".mp4")))
                ["clip.csv"]).
Proof.
  apply (C9_summary_pairs_mp4 after_two_clips "/work/out" None
           "/work/out/distance_summary.csv" [("clip", ErrorMarker)]).
  reflexivity.
Defined.

End SummaryClaims.

(** ** Further properties of the tracker *)

Module TrackerMore.
Import Tracker TrackerFacts Notions.

Lemma feed_snoc (t : FishTracker) (fs : list Frame) (f : Frame) :
  feed t (fs ++ [f]) = process_frame (feed t fs) f.
Proof. unfold feed. rewrite fold_left_app. reflexivity. Qed.

(** What one step leaves alone, and the three shapes it can take. *)
Lemma process_frame_shapes (t : FishTracker) (f : Frame) :
  (exists b,
      first_region (contours f) = Some b
      /\ process_frame t f
         = set_no_movement_frames 0
             (set_last_bbox b
                (log_centroid (clock_ms f) (fst (centroid b))
                              (snd (centroid b)) t)))
  \/ (exists b,
         detects f = false /\ last_bbox t = Some b
         /\ no_movement_frames t <= max_no_movement_frames t
         /\ process_frame t f
            = set_no_movement_frames (no_movement_frames t + 1)
                (log_centroid (clock_ms f) (fst (centroid b))
                              (snd (centroid b)) t))
  \/ (detects f = false /\ holds_position t = false /\ process_frame t f = t).
Proof.
  destruct (first_region (contours f)) as [b|] eqn:Hb.
  - left. exists b. split; [reflexivity|].
    apply process_frame_detected, Hb.
  - assert (Hd : detects f = false) by (unfold detects; rewrite Hb; reflexivity).
    destruct (holds_position t) eqn:Hh.
    + right. left. unfold holds_position in Hh.
      destruct (last_bbox t) as [b|] eqn:Hl; [|discriminate].
      apply Z.leb_le in Hh. exists b.
      repeat split; try assumption.
      apply process_frame_held; assumption.
    + right. right. repeat split; try assumption.
      apply process_frame_silent; assumption.
Qed.

(** X1.  [first_region] returns the bounding box of the first contour, in
    enumeration order, whose area is at least 500, whatever comes after
    it; it returns nothing exactly when every area is below 500. *)
Theorem first_region_first_over_threshold (cs : list Contour) :
  match first_region cs with
  | Some b =>
      exists pre c post,
        cs = pre ++ c :: post
        /\ Forall (fun c' => (area c' < 500)%Q) pre
        /\ (500 <= area c)%Q
        /\ rect c = b
  | None => Forall (fun c' => (area c' < 500)%Q) cs
  end.
Proof.
  induction cs as [|c cs IH]; cbn [first_region]; [constructor|].
  destruct (Qle_bool 500 (area c)) eqn:Hc; cbn [negb].
  - exists [], c, cs. repeat split; [constructor | apply Qle_bool_iff, Hc].
  - assert (Hlt : (area c < 500)%Q).
    { apply Qnot_le_lt. intros Hle. apply Qle_bool_iff in Hle. congruence. }
    destruct (first_region cs) as [b|].
    + destruct IH as (pre & c0 & post & -> & Hpre & Hc0 & Hb).
      exists (c :: pre), c0, post. repeat split; try assumption.
      constructor; assumption.
    + constructor; assumption.
Qed.

(** X2.  In every state reached from a fresh tracker, [positions] is the
    coordinate projection of [centroid_data]: the two trails hold the same
    points in the same order. *)
Theorem positions_mirror_trail (now : Z) (fs : list Frame) :
  positions (feed (init now) fs)
  = map trail_xy (centroid_data (feed (init now) fs))
  /\ List.length (positions (feed (init now) fs))
     = List.length (centroid_data (feed (init now) fs)).
Proof.
  assert (H : positions (feed (init now) fs)
              = map trail_xy (centroid_data (feed (init now) fs))).
  { induction fs as [|f fs IH] using rev_ind; [reflexivity|].
    rewrite feed_snoc.
    destruct (process_frame_shapes (feed (init now) fs) f)
      as [(b & _ & ->) | [(b & _ & _ & _ & ->) | (_ & _ & ->)]];
      cbn; rewrite ?map_app, ?IH; reflexivity. }
  split; [exact H|]. rewrite H, length_map. reflexivity.
Qed.

(** X3.  Feeding frames only appends to the trail: the rows already
    logged are kept as they are, and a frame adds at most one row. *)
Theorem trail_only_grows (t : FishTracker) (fs : list Frame) :
  exists rows,
    centroid_data (feed t fs) = centroid_data t ++ rows
    /\ (List.length rows <= List.length fs)%nat
    /\ start_time (feed t fs) = start_time t
    /\ max_no_movement_frames (feed t fs) = max_no_movement_frames t.
Proof.
  induction fs as [|f fs IH] using rev_ind.
  - exists []. cbn. rewrite app_nil_r. repeat split. lia.
  - destruct IH as (rows & Hc & Hl & Hs & Hm).
    rewrite feed_snoc, length_app. cbn [List.length].
    destruct (process_frame_shapes (feed t fs) f)
      as [(b & _ & ->) | [(b & _ & _ & _ & ->) | (_ & _ & ->)]].
    + eexists (rows ++ [_]). cbn. rewrite Hc, <- app_assoc, length_app. cbn.
      repeat split; try assumption. lia.
    + eexists (rows ++ [_]). cbn. rewrite Hc, <- app_assoc, length_app. cbn.
      repeat split; try assumption. lia.
    + exists rows. repeat split; try assumption. lia.
Qed.

(** X4.  Before the first detection nothing is recorded: frames without a
    qualifying region leave a fresh tracker exactly as it was. *)
Theorem cold_tracker_stays_silent (now : Z) (fs : list Frame) :
  Forall (fun f => detects f = false) fs ->
  feed (init now) fs = init now.
Proof.
  induction fs as [|f fs IH] using rev_ind; intros Hall; [reflexivity|].
  apply Forall_app in Hall. destruct Hall as [Hfs Hf].
  inversion Hf; subst.
  rewrite feed_snoc, (IH Hfs).
  apply process_frame_silent; [assumption | reflexivity].
Qed.

Lemma cold_tracker_stays_silent_witness :
  feed (init 7) [blank 8; blank 9] = init 7.
Proof.
  apply (cold_tracker_stays_silent 7 [blank 8; blank 9]).
  repeat constructor.
Defined.

Lemma last_sighting_snoc (fs : list Frame) (f : Frame) :
  last_sighting (fs ++ [f])
  = match first_region (contours f) with
    | Some b => Some b
    | None => last_sighting fs
    end.
Proof. unfold last_sighting. rewrite fold_left_app. reflexivity. Qed.

(** X5.  [last_bbox] is the bounding box of the most recent detection; it
    is never cleared, so a tracker that has detected once holds a box for
    the rest of the video. *)
Theorem last_bbox_is_last_sighting (t : FishTracker) (fs : list Frame) :
  last_bbox (feed t fs)
  = match last_sighting fs with
    | Some b => Some b
    | None => last_bbox t
    end.
Proof.
  induction fs as [|f fs IH] using rev_ind; [reflexivity|].
  rewrite feed_snoc, last_sighting_snoc.
  destruct (process_frame_shapes (feed t fs) f)
    as [(b & Hb & ->) | [(b & Hd & _ & _ & ->) | (Hd & _ & ->)]].
  - rewrite Hb. reflexivity.
  - unfold detects in Hd.
    destruct (first_region (contours f)); [discriminate|]. exact IH.
  - unfold detects in Hd.
    destruct (first_region (contours f)); [discriminate|]. exact IH.
Qed.

(** X6.  In every state reached from a fresh tracker the streak counter
    lies between 0 and [max_no_movement_frames + 1] = 11. *)
Theorem streak_bounded (now : Z) (fs : list Frame) :
  let t := feed (init now) fs in
  max_no_movement_frames t = 10
  /\ 0 <= no_movement_frames t <= 11.
Proof.
  induction fs as [|f fs IH] using rev_ind; [cbn; lia|].
  cbn zeta in *. rewrite feed_snoc.
  destruct IH as (Hm & Hn).
  destruct (process_frame_shapes (feed (init now) fs) f)
    as [(b & _ & ->) | [(b & _ & _ & Hle & ->) | (_ & _ & ->)]];
    cbn; lia.
Qed.

(** X7.  The tracker never invents a position: every point of the trail
    is the centre of the bounding box found in one of the frames fed. *)
Theorem trail_points_come_from_detections (now : Z) (fs : list Frame) :
  forall p,
    In p (positions (feed (init now) fs)) ->
    exists f b,
      In f fs /\ first_region (contours f) = Some b /\ centroid b = p.
Proof.
  assert (H : (forall p, In p (positions (feed (init now) fs)) ->
                 exists f b, In f fs /\ first_region (contours f) = Some b
                             /\ centroid b = p)
              /\ (forall b, last_bbox (feed (init now) fs) = Some b ->
                    exists f, In f fs /\ first_region (contours f) = Some b)).
  { induction fs as [|f fs [IHp IHb]] using rev_ind.
    - split; [intros p [] | intros b Hb; discriminate].
    - rewrite feed_snoc.
      assert (Hlift : forall p,
                 (exists f0 b, In f0 fs /\ first_region (contours f0) = Some b
                               /\ centroid b = p) ->
                 exists f0 b, In f0 (fs ++ [f])
                              /\ first_region (contours f0) = Some b
                              /\ centroid b = p).
      { intros p (f0 & b & Hin & Hr & Hc). exists f0, b.
        repeat split; try assumption. apply in_or_app. left. exact Hin. }
      destruct (process_frame_shapes (feed (init now) fs) f)
        as [(b & Hb & ->) | [(b & _ & Hl & _ & ->) | (_ & _ & ->)]].
      + split.
        * intros p Hp. cbn in Hp. apply in_app_or in Hp.
          destruct Hp as [Hp | [Hp | []]]; [apply Hlift, IHp, Hp|].
          exists f, b. repeat split; try assumption.
          -- apply in_or_app. right. left. reflexivity.
          -- rewrite <- Hp. apply centroid_eta.
        * intros b' Hb'. cbn in Hb'. inversion Hb'; subst b'.
          exists f. split; [apply in_or_app; right; left; reflexivity | exact Hb].
      + split.
        * intros p Hp. cbn in Hp. apply in_app_or in Hp.
          destruct Hp as [Hp | [Hp | []]]; [apply Hlift, IHp, Hp|].
          destruct (IHb b Hl) as (f0 & Hin & Hr).
          exists f0, b. repeat split; try assumption.
          -- apply in_or_app. left. exact Hin.
          -- rewrite <- Hp. apply centroid_eta.
        * intros b' Hb'. cbn in Hb'.
          destruct (IHb b' Hb') as (f0 & Hin & Hr).
          exists f0. split; [apply in_or_app; left; exact Hin | exact Hr].
      + split.
        * intros p Hp. apply Hlift, IHp, Hp.
        * intros b' Hb'. destruct (IHb b' Hb') as (f0 & Hin & Hr).
          exists f0. split; [apply in_or_app; left; exact Hin | exact Hr]. }
  exact (proj1 H).
Qed.

Lemma trail_points_come_from_detections_witness :
  exists f b,
    In f [sighting (10, 20, 7, 9) 0; blank 1]
    /\ first_region (contours f) = Some b
    /\ centroid b = (13, 24).
Proof.
  apply (trail_points_come_from_detections 0
           [sighting (10, 20, 7, 9) 0; blank 1] (13, 24)).
  right. left. reflexivity.
Defined.

End TrackerMore.

(** ** Time stamps *)

Module TimeStamps.
Import Tracker.

Lemma length_append (a b : string) :
  String.length (a ++ b) = (String.length a + String.length b)%nat.
Proof. induction a as [|c a IH]; cbn; [|rewrite IH]; reflexivity. Qed.

Lemma fmt_int_width_2 (n : Z) :
  0 <= n < 100 -> String.length (Text.fmt_int 2 n) = 2%nat.
Proof.
  intros Hn.
  assert (Hall : forallb (fun k => Nat.eqb (String.length
                                              (Text.fmt_int 2 (Z.of_nat k))) 2)
                         (seq 0 100) = true) by (vm_compute; reflexivity).
  rewrite forallb_forall in Hall.
  specialize (Hall (Z.to_nat n)). rewrite Z2Nat.id in Hall by lia.
  apply Nat.eqb_eq, Hall, in_seq. lia.
Qed.

Lemma fmt_int_width_3 (n : Z) :
  0 <= n < 1000 -> String.length (Text.fmt_int 3 n) = 3%nat.
Proof.
  intros Hn.
  assert (Hall : forallb (fun k => Nat.eqb (String.length
                                              (Text.fmt_int 3 (Z.of_nat k))) 3)
                         (seq 0 1000) = true) by (vm_compute; reflexivity).
  rewrite forallb_forall in Hall.
  specialize (Hall (Z.to_nat n)). rewrite Z2Nat.id in Hall by lia.
  apply Nat.eqb_eq, Hall, in_seq. lia.
Qed.

(** X8.  For an elapsed time below 100 hours, [format_time] writes the
    hours, minutes, seconds and milliseconds of [ms]: four fields that
    recombine to [ms], minutes and seconds below 60 and milliseconds below
    1000, in a stamp of exactly 12 characters. *)
Theorem format_time_fields (ms : Z) :
  0 <= ms < 360000000 ->
  let h := ms / 3600000 in
  let m := (ms / 60000) mod 60 in
  let s := (ms / 1000) mod 60 in
  let r := ms mod 1000 in
  format_time ms
  = (Text.fmt_int 2 h ++ ":" ++ Text.fmt_int 2 m ++ ":"
     ++ Text.fmt_int 2 s ++ ":" ++ Text.fmt_int 3 r)%string
  /\ ms = ((h * 60 + m) * 60 + s) * 1000 + r
  /\ 0 <= h < 100 /\ 0 <= m < 60 /\ 0 <= s < 60 /\ 0 <= r < 1000
  /\ String.length (format_time ms) = 12%nat.
Proof.
  intros Hms h m s r.
  assert (Hmin : ms / 1000 / 60 = ms / 60000)
    by (rewrite Z.div_div by lia; reflexivity).
  assert (Hh : ms / 1000 / 60 / 60 = ms / 3600000)
    by (rewrite !Z.div_div by lia; reflexivity).
  assert (Hfmt : format_time ms
                 = (Text.fmt_int 2 h ++ ":" ++ Text.fmt_int 2 m ++ ":"
                    ++ Text.fmt_int 2 s ++ ":" ++ Text.fmt_int 3 r)%string).
  { unfold format_time. cbn zeta. rewrite Hh, Hmin. reflexivity. }
  assert (Hrange : 0 <= h < 100 /\ 0 <= m < 60 /\ 0 <= s < 60 /\ 0 <= r < 1000).
  { subst h m s r. repeat split;
      try (apply Z.mod_pos_bound; lia);
      try (apply Z.div_pos; lia).
    apply Z.div_lt_upper_bound; lia. }
  split; [exact Hfmt|]. split.
  - subst h m s r.
    pose proof (Z.div_mod ms 1000 ltac:(lia)) as H1.
    pose proof (Z.div_mod (ms / 1000) 60 ltac:(lia)) as H2.
    pose proof (Z.div_mod (ms / 60000) 60 ltac:(lia)) as H3.
    rewrite Hmin in H2. rewrite Z.div_div in H3 by lia.
    change (60000 * 60) with 3600000 in H3. lia.
  - destruct Hrange as (Hh' & Hm' & Hs' & Hr').
    repeat split; try lia.
    rewrite Hfmt, !length_append.
    rewrite (fmt_int_width_2 h Hh'), (fmt_int_width_2 m ltac:(lia)),
      (fmt_int_width_2 s ltac:(lia)), (fmt_int_width_3 r Hr').
    reflexivity.
Qed.

Lemma format_time_fields_witness :
  format_time 3723004 = "01:02:03:004"
  /\ String.length (format_time 3723004) = 12%nat.
Proof.
  assert (H : 0 <= 3723004 < 360000000) by lia.
  destruct (format_time_fields 3723004 H) as (Hf & _ & _ & _ & _ & _ & Hl).
  split; [rewrite Hf; reflexivity | exact Hl].
Defined.

End TimeStamps.

(** ** Further properties of the distance computation *)

Module DistanceMore.
Import Distance DistanceFacts Notions.

(** The value computed from the points read, for a video that opens with
    non-zero dimensions. *)
Lemma distance_of_points (csv : outcome Table) (video : VideoInfo)
    (rw rh : R) (frame_skip : Z) (points : list (Z * Z)) :
  is_opened video = true ->
  frame_width video <> 0 ->
  frame_height video <> 0 ->
  read_points csv frame_skip = Some points ->
  calculate_total_distance csv video rw rh frame_skip
  = Returned (Some (path_length points * scale rw rh video)%R).
Proof.
  intros Ho Hw Hh Hread. unfold calculate_total_distance.
  rewrite Ho, Hread. cbn [negb].
  destruct (List.length points <? 2)%nat eqn:Hlen.
  - apply Nat.ltb_lt in Hlen.
    assert (H0 : path_length points = 0%R).
    { destruct points as [|p [|q rest]]; cbn in Hlen; try reflexivity; lia. }
    rewrite H0, Rmult_0_l. reflexivity.
  - apply Z.eqb_neq in Hw. apply Z.eqb_neq in Hh. rewrite Hw, Hh.
    rewrite total_pixel_distance_path. reflexivity.
Qed.

(** *** A table without the [Centroid_X] column *)

Lemma lookup_last_absent (key : string) (d : Row) :
  (forall k v, In (k, v) d -> k <> key) ->
  forall found, lookup_last key d found = found.
Proof.
  induction d as [|[k v] d IH]; intros Hd found; [reflexivity|].
  cbn [lookup_last].
  assert (Hk : String.eqb k key = false)
    by (apply String.eqb_neq, (Hd k v); left; reflexivity).
  rewrite Hk. apply IH. intros k' v' Hin. apply (Hd k' v'). right. exact Hin.
Qed.

Lemma zip_fields_keys (names rec : list string) (k : string) (v : option string) :
  In (k, v) (zip_fields names rec) -> In k names.
Proof.
  revert rec. induction names as [|n names IH]; intros rec Hin; [destruct Hin|].
  destruct rec as [|r rec]; [destruct Hin|].
  destruct Hin as [Hin|Hin].
  - inversion Hin. left. reflexivity.
  - right. apply (IH rec), Hin.
Qed.

Lemma dict_row_keys (names rec : list string) (k : string) (v : option string) :
  In (k, v) (dict_row names rec) -> In k names.
Proof.
  unfold dict_row. intros Hin. apply in_app_or in Hin.
  destruct Hin as [Hin|Hin]; [apply (zip_fields_keys names rec k v), Hin|].
  apply in_map_iff in Hin. destruct Hin as (k' & Hk & Hin).
  inversion Hk; subst k'.
  rewrite <- (firstn_skipn (List.length rec) names).
  apply in_or_app. right. exact Hin.
Qed.

Lemma row_point_without_column (names rec : list string) :
  ~ In "Centroid_X" names ->
  row_point (dict_row names rec) = Raised (Exn KeyError "Centroid_X").
Proof.
  intros Hno. unfold row_point, getitem.
  rewrite lookup_last_absent; [reflexivity|].
  intros k v Hin Hk. subst k. apply Hno, (dict_row_keys names rec _ v), Hin.
Qed.

Lemma sampled_all_rejected (rows : list Row) (frame_skip : Z) :
  Forall (fun row => exists e, row_point row = Raised e
                               /\ is_row_error e = true) rows ->
  forall idx, usable_points (sampled_from frame_skip idx rows) = Returned [].
Proof.
  induction 1 as [|row rows (e & He & Hr) _ IH]; intros idx; [reflexivity|].
  cbn [sampled_from]. destruct (idx mod frame_skip =? 0); [|apply IH].
  cbn [usable_points]. rewrite He, Hr. apply IH.
Qed.

(** X9.  A table whose header has no [Centroid_X] column is not a
    failure: every row is skipped on its [KeyError] and the distance is 0
    (for a video that opens and a non-zero [frame_skip]). *)
Theorem missing_column_gives_zero (tb : Table) (video : VideoInfo)
    (rw rh : R) (frame_skip : Z) :
  ~ In "Centroid_X" (fieldnames tb) ->
  is_opened video = true ->
  frame_skip <> 0 ->
  calculate_total_distance (Returned tb) video rw rh frame_skip
  = Returned (Some 0%R).
Proof.
  intros Hno Ho Hfs.
  apply (few_points_zero _ video rw rh frame_skip [] Ho); [|cbn; lia].
  rewrite (read_points_sampled tb frame_skip Hfs). unfold sampled.
  rewrite sampled_all_rejected; [reflexivity|].
  unfold dict_rows. apply Forall_forall. intros row Hrow.
  apply in_map_iff in Hrow. destruct Hrow as (rec & <- & _).
  eexists. split; [apply row_point_without_column, Hno | reflexivity].
Qed.

Lemma missing_column_gives_zero_witness :
  calculate_total_distance
    (Returned {| fieldnames := ["Time"; "X"; "Y"];
                 records := [["0"; "1"; "2"]; ["1"; "5"; "9"]] |})
    Examples.vga 28 14 1
  = Returned (Some 0%R).
Proof.
  apply missing_column_gives_zero.
  - cbn. intros [H|[H|[H|[]]]]; discriminate.
  - reflexivity.
  - lia.
Defined.

(** *** Sign, stillness, translation *)

Lemma euclid_nonneg (p q : Z * Z) : (0 <= euclid p q)%R.
Proof. unfold euclid. apply sqrt_pos. Qed.

Lemma path_length_nonneg (points : list (Z * Z)) : (0 <= path_length points)%R.
Proof.
  induction points as [|p [|q rest] IH]; cbn [path_length];
    try apply Rle_refl.
  apply Rplus_le_le_0_compat; [apply euclid_nonneg | exact IH].
Qed.

(** X10.  With non-negative real-world sizes and positive frame
    dimensions the distance returned is never negative. *)
Theorem distance_nonnegative (csv : outcome Table) (video : VideoInfo)
    (rw rh : R) (frame_skip : Z) (d : R) :
  (0 <= rw)%R -> (0 <= rh)%R ->
  0 < frame_width video -> 0 < frame_height video ->
  calculate_total_distance csv video rw rh frame_skip = Returned (Some d) ->
  (0 <= d)%R.
Proof.
  intros Hrw Hrh Hw Hh H. unfold calculate_total_distance in H.
  destruct (negb (is_opened video)) eqn:Ho; [discriminate|].
  apply negb_false_iff in Ho.
  destruct (read_points csv frame_skip) as [points|] eqn:Hread; [|discriminate].
  assert (Hd : d = (path_length points * scale rw rh video)%R).
  { pose proof (distance_of_points csv video rw rh frame_skip points Ho
                  ltac:(lia) ltac:(lia) Hread) as Hv.
    unfold calculate_total_distance in Hv.
    rewrite Ho, Hread in Hv. cbn [negb] in Hv.
    rewrite Hv in H. inversion H. reflexivity. }
  subst d. apply Rmult_le_pos; [apply path_length_nonneg|].
  unfold scale.
  assert (Hfw : (0 < IZR (frame_width video))%R) by (apply IZR_lt; lia).
  assert (Hfh : (0 < IZR (frame_height video))%R) by (apply IZR_lt; lia).
  apply Rmult_le_pos; [|lra].
  apply Rplus_le_le_0_compat; apply Rmult_le_pos; try assumption;
    left; apply Rinv_0_lt_compat; assumption.
Qed.

Lemma distance_nonnegative_witness :
  (0 <= total_pixel_distance Examples.every_other_point
        * ((28 / IZR 640 + 14 / IZR 480) / 2))%R.
Proof.
  apply (distance_nonnegative (Returned Examples.five_rows) Examples.vga
           28%R 14%R 2).
  - lra.
  - lra.
  - cbn; lia.
  - cbn; lia.
  - reflexivity.
Defined.

Lemma euclid_same (p : Z * Z) : euclid p p = 0%R.
Proof.
  unfold euclid.
  replace ((IZR (fst p) - IZR (fst p)) ^ 2 + (IZR (snd p) - IZR (snd p)) ^ 2)%R
    with 0%R by ring.
  apply sqrt_0.
Qed.

Lemma path_length_still (p : Z * Z) (points : list (Z * Z)) :
  Forall (fun q => q = p) points -> path_length points = 0%R.
Proof.
  induction 1 as [|q [|q' rest] Hq Hall IH]; try reflexivity.
  inversion Hall; subst.
  change (path_length (p :: p :: rest))
    with (euclid p p + path_length (p :: rest))%R.
  rewrite euclid_same, IH. ring.
Qed.

(** X11.  A subject that does not move travels no distance: when all the
    points read are the same position, the result is 0 (for a video that
    opens with non-zero dimensions). *)
Theorem still_subject_zero_distance (csv : outcome Table) (video : VideoInfo)
    (rw rh : R) (frame_skip : Z) (points : list (Z * Z)) (p : Z * Z) :
  is_opened video = true ->
  frame_width video <> 0 ->
  frame_height video <> 0 ->
  read_points csv frame_skip = Some points ->
  Forall (fun q => q = p) points ->
  calculate_total_distance csv video rw rh frame_skip = Returned (Some 0%R).
Proof.
  intros Ho Hw Hh Hread Hstill.
  rewrite (distance_of_points csv video rw rh frame_skip points Ho Hw Hh Hread).
  rewrite (path_length_still p points Hstill), Rmult_0_l. reflexivity.
Qed.

Lemma still_subject_zero_distance_witness :
  calculate_total_distance
    (Returned (written_table [("00:00:00:001", 13, 24); ("00:00:00:002", 13, 24);
                              ("00:00:00:003", 13, 24)]))
    Examples.vga 28 14 1
  = Returned (Some 0%R).
Proof.
  apply (still_subject_zero_distance _ Examples.vga 28%R 14%R 1
           [(13, 24); (13, 24); (13, 24)] (13, 24)).
  - reflexivity.
  - cbn; lia.
  - cbn; lia.
  - reflexivity.
  - repeat constructor.
Defined.

Lemma euclid_shift (dx dy : Z) (p q : Z * Z) :
  euclid (fst p + dx, snd p + dy) (fst q + dx, snd q + dy) = euclid p q.
Proof.
  unfold euclid. cbn [fst snd]. f_equal. rewrite !plus_IZR. ring.
Qed.

(** X12.  The pixel distance summed by the code depends on the
    displacements only: shifting every point by the same offset leaves it
    unchanged. *)
Theorem total_pixel_distance_translation (dx dy : Z) (points : list (Z * Z)) :
  total_pixel_distance (map (fun q => (fst q + dx, snd q + dy)) points)
  = total_pixel_distance points.
Proof.
  rewrite !total_pixel_distance_path.
  induction points as [|p [|q rest] IH]; try reflexivity.
  change (path_length (p :: q :: rest))
    with (euclid p q + path_length (q :: rest))%R.
  rewrite <- IH. cbn [map path_length]. rewrite euclid_shift. reflexivity.
Qed.

(** *** Sampling only drops points *)

Lemma sampled_from_subseq (frame_skip : Z) (rows : list Row) :
  forall idx, Subseq (sampled_from frame_skip idx rows) rows.
Proof.
  induction rows as [|row rows IH]; intros idx; [constructor|].
  cbn [sampled_from]. destruct (idx mod frame_skip =? 0);
    constructor; apply IH.
Qed.

Lemma usable_points_subseq (rows' rows : list Row) :
  Subseq rows' rows ->
  forall all,
    usable_points rows = Returned all ->
    exists some, usable_points rows' = Returned some /\ Subseq some all.
Proof.
  induction 1 as [|row l l' _ IH|row l l' _ IH]; intros all Hall.
  - exists []. cbn in Hall. inversion Hall. split; [reflexivity | constructor].
  - cbn [usable_points] in *.
    destruct (row_point row) as [p|e].
    + destruct (usable_points l') as [ps|e'] eqn:Hl'; [|discriminate].
      inversion Hall; subst all.
      destruct (IH ps eq_refl) as (some & -> & Hsub).
      exists (p :: some). split; [reflexivity | constructor; exact Hsub].
    + destruct (is_row_error e); [apply IH, Hall | discriminate].
  - cbn [usable_points] in Hall.
    destruct (row_point row) as [p|e].
    + destruct (usable_points l') as [ps|e'] eqn:Hl'; [|discriminate].
      inversion Hall; subst all.
      destruct (IH ps eq_refl) as (some & Hs & Hsub).
      exists some. split; [exact Hs | constructor; exact Hsub].
    + destruct (is_row_error e); [apply IH, Hall | discriminate].
Qed.

Lemma sampled_every_row (rows : list Row) :
  forall idx, sampled_from 1 idx rows = rows.
Proof.
  induction rows as [|row rows IH]; intros idx; [reflexivity|].
  cbn [sampled_from]. rewrite Z.mod_1_r. cbn. rewrite IH. reflexivity.
Qed.

(** X13.  Sampling only drops points: if the table is read without
    failure over every row ([frame_skip = 1]), then for any other non-zero
    [frame_skip] it is read without failure too, and the points used are,
    in the same order, a subsequence of the points used over every row. *)
Theorem sampling_reads_subsequence (tb : Table) (frame_skip : Z)
    (all : list (Z * Z)) :
  frame_skip <> 0 ->
  read_points (Returned tb) 1 = Some all ->
  exists some,
    read_points (Returned tb) frame_skip = Some some
    /\ Subseq some all.
Proof.
  intros Hfs Hread1.
  rewrite (read_points_sampled tb 1 ltac:(lia)) in Hread1.
  unfold sampled in Hread1. rewrite sampled_every_row in Hread1.
  destruct (usable_points (dict_rows tb)) as [all'|e] eqn:Hu; [|discriminate].
  inversion Hread1; subst all'.
  destruct (usable_points_subseq _ _
              (sampled_from_subseq frame_skip (dict_rows tb) 0) all Hu)
    as (some & Hsome & Hsub).
  exists some. split; [|exact Hsub].
  rewrite (read_points_sampled tb frame_skip Hfs). unfold sampled.
  rewrite Hsome. reflexivity.
Qed.

Lemma sampling_reads_subsequence_witness :
  exists some,
    read_points (Returned Examples.five_rows) 2 = Some some
    /\ Subseq some [(0, 0); (1, 1); (3, 4); (9, 9); (6, 8)].
Proof.
  apply (sampling_reads_subsequence Examples.five_rows 2
           [(0, 0); (1, 1); (3, 4); (9, 9); (6, 8)]).
  - lia.
  - reflexivity.
Defined.

End DistanceMore.

(** ** Reading back what the tracker writes *)

Module RoundTrip.
Import Tracker Distance Notions.

Lemma parse_uint_acc (d : Decimal.uint) :
  forall acc : positive,
    Text.parse_digits (NilEmpty.string_of_uint d) (Zpos acc) true
    = Some (Zpos (Pos.of_uint_acc d acc)).
Proof.
  induction d as [|d IH|d IH|d IH|d IH|d IH|d IH|d IH|d IH|d IH|d IH];
    intros acc; [reflexivity|..];
    cbn [NilEmpty.string_of_uint Text.parse_digits Pos.of_uint_acc];
    change (Text.digit_val _) with (Some 0) || change (Text.digit_val _) with (Some 1)
    || change (Text.digit_val _) with (Some 2) || change (Text.digit_val _) with (Some 3)
    || change (Text.digit_val _) with (Some 4) || change (Text.digit_val _) with (Some 5)
    || change (Text.digit_val _) with (Some 6) || change (Text.digit_val _) with (Some 7)
    || change (Text.digit_val _) with (Some 8) || change (Text.digit_val _) with (Some 9);
    cbv iota beta; rewrite <- IH; f_equal; lia.
Qed.

Lemma parse_uint (d : Decimal.uint) :
  forall b : bool,
    Text.parse_digits (NilEmpty.string_of_uint d) 0 b
    = match d with
      | Decimal.Nil => if b then Some 0 else None
      | _ => Some (Z.of_N (Pos.of_uint d))
      end.
Proof.
  induction d as [|d IH|d IH|d IH|d IH|d IH|d IH|d IH|d IH|d IH|d IH];
    intros b; [reflexivity| |
      cbn [NilEmpty.string_of_uint Text.parse_digits];
      (change (Text.digit_val _) with (Some 1) || change (Text.digit_val _) with (Some 2)
       || change (Text.digit_val _) with (Some 3) || change (Text.digit_val _) with (Some 4)
       || change (Text.digit_val _) with (Some 5) || change (Text.digit_val _) with (Some 6)
       || change (Text.digit_val _) with (Some 7) || change (Text.digit_val _) with (Some 8)
       || change (Text.digit_val _) with (Some 9));
      cbv iota beta; apply parse_uint_acc ..].
  cbn [NilEmpty.string_of_uint Text.parse_digits].
  change (Text.digit_val "0") with (Some 0). cbv iota beta.
  change (10 * 0 + 0) with 0. rewrite IH.
  destruct d; reflexivity.
Qed.

Lemma parse_digits_of_digits (n : Z) :
  0 <= n -> Text.parse_digits (Text.digits n) 0 false = Some n.
Proof.
  intros Hn. unfold Text.digits, NilZero.string_of_uint.
  pose proof (DecimalN.Unsigned.of_to (Z.to_N n)) as Hround.
  unfold N.of_uint in Hround.
  assert (Hz : Z.of_N (Pos.of_uint (N.to_uint (Z.to_N n))) = n)
    by (rewrite Hround; apply Z2N.id; exact Hn).
  clear Hround.
  destruct (N.to_uint (Z.to_N n)) as [|d|d|d|d|d|d|d|d|d|d];
    [cbn in Hz |- *; rewrite <- Hz; reflexivity
    | rewrite parse_uint, Hz; reflexivity ..].
Qed.

Lemma all_digits_of_uint (d : Decimal.uint) :
  all_digits (NilEmpty.string_of_uint d) = true.
Proof. induction d; cbn; assumption || reflexivity. Qed.

Lemma all_digits_of_digits (n : Z) : all_digits (Text.digits n) = true.
Proof.
  unfold Text.digits, NilZero.string_of_uint.
  destruct (N.to_uint (Z.to_N n)) eqn:Hd; try reflexivity;
    rewrite <- Hd at 1; rewrite <- (all_digits_of_uint (N.to_uint (Z.to_N n)));
    rewrite Hd; reflexivity.
Qed.

Lemma all_digits_app (a b : string) :
  all_digits (a ++ b) = (all_digits a && all_digits b)%bool.
Proof.
  induction a as [|c a IH]; [reflexivity|]. cbn.
  destruct (Text.digit_val c); [exact IH | reflexivity].
Qed.

Lemma all_digits_rev (s : string) : all_digits (Text.rev_string s) = all_digits s.
Proof.
  induction s as [|c s IH]; [reflexivity|]. cbn.
  rewrite all_digits_app, IH. cbn.
  destruct (Text.digit_val c); [apply andb_true_r | apply andb_false_r].
Qed.

Lemma digit_not_space (c : ascii) (v : Z) :
  Text.digit_val c = Some v -> Text.is_space c = false.
Proof.
  unfold Text.digit_val, Text.is_space.
  destruct (Nat.leb 48 (nat_of_ascii c) && Nat.leb (nat_of_ascii c) 57)%bool eqn:H;
    [|discriminate].
  intros _. apply andb_true_iff in H. destruct H as [H1 H2].
  apply Nat.leb_le in H1.
  replace (Nat.leb (nat_of_ascii c) 13) with false
    by (symmetry; apply Nat.leb_gt; lia).
  replace (Nat.eqb (nat_of_ascii c) 32) with false
    by (symmetry; apply Nat.eqb_neq; lia).
  rewrite !andb_false_r. reflexivity.
Qed.

Lemma lstrip_digits (s rest : string) :
  all_digits s = true -> Text.lstrip (s ++ rest) = (s ++ Text.lstrip rest)%string
                         \/ Text.lstrip (s ++ rest) = (s ++ rest)%string.
Proof.
  intros Hs. destruct s as [|c s]; [left; reflexivity|].
  right. cbn in Hs |- *.
  destruct (Text.digit_val c) as [v|] eqn:Hc; [|discriminate].
  rewrite (digit_not_space c v Hc). reflexivity.
Qed.

Lemma strip_digits (s : string) : all_digits s = true -> Text.strip s = s.
Proof.
  intros Hs. unfold Text.strip.
  assert (H1 : Text.lstrip s = s).
  { destruct (lstrip_digits s "" Hs) as [H|H];
      cbn [Text.lstrip] in H; rewrite !TextFacts.append_nil_r in H; exact H. }
  rewrite H1.
  assert (H2 : Text.lstrip (Text.rev_string s) = Text.rev_string s).
  { assert (Hr : all_digits (Text.rev_string s) = true)
      by (rewrite all_digits_rev; exact Hs).
    destruct (lstrip_digits (Text.rev_string s) "" Hr) as [H|H];
      cbn [Text.lstrip] in H; rewrite !TextFacts.append_nil_r in H; exact H. }
  rewrite H2. apply TextFacts.rev_string_involutive.
Qed.

Lemma strip_minus_digits (s : string) :
  all_digits s = true -> Text.strip (String "-" s) = String "-" s.
Proof.
  intros Hs. unfold Text.strip.
  change (Text.lstrip (String "-" s)) with (String "-" s).
  cbn [Text.rev_string].
  assert (Hr : all_digits (Text.rev_string s) = true)
    by (rewrite all_digits_rev; exact Hs).
  assert (H2 : Text.lstrip (Text.rev_string s ++ "-")
               = (Text.rev_string s ++ "-")%string).
  { destruct (lstrip_digits (Text.rev_string s) "-" Hr) as [H|H]; exact H. }
  rewrite H2, TextFacts.rev_string_app, TextFacts.rev_string_involutive.
  reflexivity.
Qed.

Lemma parse_int_unsigned (s : string) :
  all_digits s = true ->
  Text.parse_int s = Text.parse_digits s 0 false.
Proof.
  intros Hs. unfold Text.parse_int. rewrite (strip_digits s Hs).
  destruct s as [|c r]; [reflexivity|].
  cbn in Hs. destruct (Text.digit_val c) eqn:Hc; [|discriminate].
  destruct c as [[] [] [] [] [] [] [] []]; try reflexivity; discriminate.
Qed.

(** [int(str(n)) == n] *)
Lemma parse_int_py_str (n : Z) : Text.parse_int (py_str n) = Some n.
Proof.
  unfold py_str. destruct (n <? 0) eqn:Hn.
  - apply Z.ltb_lt in Hn.
    change ("-" ++ Text.digits (- n))%string with (String "-" (Text.digits (- n))).
    unfold Text.parse_int.
    rewrite (strip_minus_digits _ (all_digits_of_digits (- n))).
    rewrite parse_digits_of_digits by lia. cbn. f_equal. lia.
  - apply Z.ltb_ge in Hn.
    rewrite (parse_int_unsigned _ (all_digits_of_digits n)).
    apply parse_digits_of_digits, Hn.
Qed.

Lemma row_point_written (row : TrailRow) :
  row_point (dict_row Pipeline.csv_header (csv_record row))
  = Returned (trail_xy row).
Proof.
  destruct row as [[ts x] y].
  unfold row_point, getitem, py_int. cbn.
  rewrite !parse_int_py_str. reflexivity.
Qed.

Lemma dict_rows_written (rows : list TrailRow) :
  dict_rows (written_table rows)
  = map (fun row => dict_row Pipeline.csv_header (csv_record row)) rows.
Proof.
  unfold dict_rows, written_table. cbn [records fieldnames].
  induction rows as [|[[ts x] y] rows IH]; [reflexivity|].
  cbn [map filter csv_record is_blank negb]. rewrite IH. reflexivity.
Qed.

Lemma usable_points_written (frame_skip : Z) (rows : list TrailRow) :
  forall idx,
    usable_points
      (sampled_from frame_skip idx
         (map (fun row => dict_row Pipeline.csv_header (csv_record row)) rows))
    = Returned
        (map (fun i => trail_xy (nth i rows ("", 0, 0)))
             (filter (fun i => (idx + Z.of_nat i) mod frame_skip =? 0)
                     (seq 0 (List.length rows)))).
Proof.
  induction rows as [|row rows IH]; intros idx; [reflexivity|].
  cbn [map sampled_from List.length]. rewrite <- cons_seq, <- seq_shift.
  cbn [filter]. rewrite filter_map_swap.
  change (idx + Z.of_nat 0) with (idx + 0). rewrite Z.add_0_r.
  assert (Hshift :
    filter (fun a => (idx + Z.of_nat (S a)) mod frame_skip =? 0)
           (seq 0 (List.length rows))
    = filter (fun i => (idx + 1 + Z.of_nat i) mod frame_skip =? 0)
             (seq 0 (List.length rows))).
  { apply filter_ext. intros a. f_equal. f_equal. lia. }
  rewrite Hshift.
  destruct (idx mod frame_skip =? 0); cbn [usable_points map nth];
    rewrite ?row_point_written, map_map, IH; reflexivity.
Qed.

(** X14.  The table [save_results] writes is read back without loss: for
    a non-zero [frame_skip] the points read are the recorded centroids of
    the rows whose index is a multiple of [frame_skip], in order; with
    [frame_skip = 1], over the trail of any state reached from a fresh
    tracker, they are the tracker's [positions]. *)
Theorem written_table_reads_back (rows : list TrailRow) (frame_skip : Z) :
  frame_skip <> 0 ->
  read_points (Returned (written_table rows)) frame_skip
  = Some (map (fun i => trail_xy (nth i rows ("", 0, 0)))
              (filter (fun i => Z.of_nat i mod frame_skip =? 0)
                      (seq 0 (List.length rows))))
  /\ read_points (Returned (written_table rows)) 1 = Some (map trail_xy rows)
  /\ forall now fs,
       rows = centroid_data (feed (init now) fs) ->
       read_points (Returned (written_table rows)) 1
       = Some (positions (feed (init now) fs)).
Proof.
  intros Hfs.
  assert (Hall : read_points (Returned (written_table rows)) 1
                 = Some (map trail_xy rows)).
  { rewrite (DistanceFacts.read_points_sampled _ 1 ltac:(lia)).
    unfold sampled. rewrite DistanceMore.sampled_every_row.
    rewrite dict_rows_written.
    pose proof (usable_points_written 1 rows 0) as H.
    rewrite DistanceMore.sampled_every_row in H. rewrite H. f_equal.
    rewrite (filter_ext _ (fun _ => true)), filter_true
      by (intros a; rewrite Z.mod_1_r; reflexivity).
    clear. induction rows as [|row rows IH]; [reflexivity|].
    cbn [List.length]. rewrite <- cons_seq, <- seq_shift.
    cbn [map nth]. rewrite map_map. cbn [nth]. rewrite IH. reflexivity. }
  split; [|split].
  - rewrite (DistanceFacts.read_points_sampled _ frame_skip Hfs).
    unfold sampled. rewrite dict_rows_written, usable_points_written.
    reflexivity.
  - exact Hall.
  - intros now fs Hrows. rewrite Hall. f_equal.
    rewrite Hrows. symmetry. apply TrackerFacts.positions_follow_trail.
Qed.

Lemma written_table_reads_back_witness :
  read_points
    (Returned (written_table [("00:00:00:001", 13, 24); ("00:00:00:002", -4, 7);
                              ("00:00:00:003", 20, 0)])) 2
  = Some [(13, 24); (20, 0)].
Proof.
  assert (H2 : 2 <> 0) by lia.
  destruct (written_table_reads_back
              [("00:00:00:001", 13, 24); ("00:00:00:002", -4, 7);
               ("00:00:00:003", 20, 0)] 2 H2) as (H & _).
  rewrite H. reflexivity.
Defined.

End RoundTrip.

(** ** Further properties of the summary *)

Module SummaryMore.
Import Distance Summary Notions.

Lemma summarize_rows (fs : Files) (data_dir videos_dir : string)
    (csv_files : list string) :
  forall results rows,
    summarize fs data_dir videos_dir csv_files results = Returned rows ->
    exists new,
      rows = results ++ new
      /\ Forall2 (row_for fs data_dir videos_dir)
                 (filter (fun f => path_exists fs (paired_video videos_dir f))
                         csv_files)
                 new.
Proof.
  induction csv_files as [|f rest IH]; intros results rows H.
  - cbn in H. inversion H. exists []. rewrite app_nil_r. split; constructor.
  - cbn [summarize] in H. cbn [filter]. unfold paired_video at 1.
    destruct (path_exists fs
                (Text.join videos_dir (fst (Text.splitext f) ++ ".mp4")));
      cbn [negb] in H; [|apply IH, H].
    destruct (calculate_total_distance_default _ _) as [[d|]|e] eqn:Hd;
      [| |discriminate];
      apply IH in H; destruct H as (new & -> & Hnew);
      eexists (_ :: new); rewrite <- app_assoc;
      (split; [reflexivity|]); constructor; try exact Hnew;
      split; [reflexivity | exact Hd | reflexivity | exact Hd].
Qed.

(** X15.  When the summary is written, its rows are, in listing order,
    one per trajectory file whose [<stem>.mp4] exists: the stem, and the
    distance computed for that pair, or the marker [Error] when the
    computation reported [None]. *)
Theorem summary_rows_in_listing_order
    (fs : Files) (output_root : string) (videos_dir : option string)
    (summary_csv : string) (rows : list SummaryRow) :
  calculate_summary fs output_root videos_dir
  = Returned (Some (summary_csv, rows)) ->
  let data_dir := Text.join output_root "data" in
  let vd := videos_dir_of output_root videos_dir in
  summary_csv = Text.join output_root "distance_summary.csv"
  /\ Forall2 (row_for fs data_dir vd)
             (filter (fun f => path_exists fs (paired_video vd f))
                     (filter is_csv_name (listdir fs data_dir)))
             rows.
Proof.
  intros H data_dir vd. unfold calculate_summary in H.
  fold data_dir in H. fold vd in H.
  destruct (negb (path_exists fs data_dir) || negb (path_exists fs vd))%bool;
    [discriminate|].
  destruct (filter is_csv_name (listdir fs data_dir)) as [|f rest] eqn:Hcsv;
    [discriminate|].
  destruct (summarize fs data_dir vd (f :: rest) []) as [results|e] eqn:Hs;
    [|discriminate].
  inversion H; subst. split; [reflexivity|].
  apply summarize_rows in Hs. destruct Hs as (new & -> & Hnew). exact Hnew.
Qed.

Lemma summary_rows_in_listing_order_witness :
  Forall2 (row_for Examples.after_two_clips "/work/out/data" "/work/videos")
          (filter (fun f => path_exists Examples.after_two_clips
                              (paired_video "/work/videos" f))
                  (filter is_csv_name ["clip.csv"]))
          [("clip", ErrorMarker)].
Proof.
  apply (summary_rows_in_listing_order Examples.after_two_clips "/work/out" None
           "/work/out/distance_summary.csv" [("clip", ErrorMarker)]).
  reflexivity.
Defined.

Lemma summarize_raises (fs : Files) (data_dir videos_dir : string)
    (csv_files : list string) (f : string) (e : exn) :
  In f csv_files ->
  path_exists fs (paired_video videos_dir f) = true ->
  calculate_total_distance_default
    (csv_at fs (Text.join data_dir f))
    (video_at fs (paired_video videos_dir f)) = Raised e ->
  forall results,
    exists e', summarize fs data_dir videos_dir csv_files results = Raised e'.
Proof.
  intros Hin Hex Hraise.
  induction csv_files as [|g rest IH]; intros results; [destruct Hin|].
  cbn [summarize].
  destruct Hin as [->|Hin].
  - unfold paired_video in Hex, Hraise. rewrite Hex, Hraise. cbn [negb].
    exists e. reflexivity.
  - destruct (path_exists fs
                (Text.join videos_dir (fst (Text.splitext g) ++ ".mp4")));
      cbn [negb]; [|apply IH, Hin].
    destruct (calculate_total_distance_default
                (csv_at fs (Text.join data_dir g)) _) as [[d|]|e0];
      [apply IH, Hin | apply IH, Hin | exists e0; reflexivity].
Qed.

(** X16.  The division by the frame size is not guarded: a video that
    opens but reports a width or height of 0, paired with a trajectory of
    at least two sampled points, makes [calculate_summary] raise instead
    of returning, so no summary is written for any video. *)
Theorem zero_frame_size_aborts_summary
    (fs : Files) (output_root : string) (videos_dir : option string)
    (f : string) (points : list (Z * Z)) :
  let data_dir := Text.join output_root "data" in
  let vd := videos_dir_of output_root videos_dir in
  let video := video_at fs (paired_video vd f) in
  path_exists fs data_dir = true ->
  path_exists fs vd = true ->
  In f (filter is_csv_name (listdir fs data_dir)) ->
  path_exists fs (paired_video vd f) = true ->
  is_opened video = true ->
  frame_width video = 0 \/ frame_height video = 0 ->
  read_points (csv_at fs (Text.join data_dir f)) 60 = Some points ->
  (2 <= List.length points)%nat ->
  exists e, calculate_summary fs output_root videos_dir = Raised e.
Proof.
  intros data_dir vd video Hd Hv Hin Hex Ho Hzero Hread Hlen.
  assert (Hraise : exists e,
             calculate_total_distance_default
               (csv_at fs (Text.join data_dir f)) video = Raised e).
  { unfold calculate_total_distance_default, calculate_total_distance.
    rewrite Ho, Hread. cbn [negb].
    assert (Hl : (List.length points <? 2)%nat = false)
      by (apply Nat.ltb_ge; exact Hlen).
    rewrite Hl.
    destruct (frame_width video =? 0) eqn:Hw; [eexists; reflexivity|].
    destruct Hzero as [Hz|Hz]; [apply Z.eqb_neq in Hw; contradiction|].
    rewrite Hz. eexists. reflexivity. }
  destruct Hraise as (e & Hraise).
  unfold calculate_summary. fold data_dir. fold vd.
  rewrite Hd, Hv. cbn [negb orb].
  destruct (filter is_csv_name (listdir fs data_dir)) as [|g rest] eqn:Hcsv;
    [destruct Hin|].
  destruct (summarize_raises fs data_dir vd (g :: rest) f e Hin Hex Hraise [])
    as (e' & ->).
  exists e'. reflexivity.
Qed.

Lemma zero_frame_size_aborts_summary_witness :
  exists e, calculate_summary zero_width_files "/work/out" None = Raised e.
Proof.
  apply (zero_frame_size_aborts_summary zero_width_files "/work/out" None
           "clip.csv" [(13, 24); (20, 30)]).
  - reflexivity.
  - reflexivity.
  - left. reflexivity.
  - reflexivity.
  - reflexivity.
  - left. reflexivity.
  - vm_compute. reflexivity.
  - cbn. lia.
Defined.

End SummaryMore.

(** ** From the input's name to the trajectory file and back *)

Module NamesMore.
Import Text Notions.

Lemma split_last_at (c : ascii) (x t : string) :
  split_last c t = None ->
  split_last c (x ++ String c t) = Some (x, t).
Proof.
  intros Ht. induction x as [|a x IH].
  - cbn [append split_last]. rewrite Ht, Ascii.eqb_refl. reflexivity.
  - cbn [append split_last]. rewrite IH. reflexivity.
Qed.

Lemma split_last_sound (c : ascii) (s h t : string) :
  split_last c s = Some (h, t) ->
  s = (h ++ String c t)%string /\ split_last c t = None.
Proof.
  revert h t. induction s as [|a s IH]; intros h t H; [discriminate|].
  cbn [split_last] in H.
  destruct (split_last c s) as [[h' t']|] eqn:Hs.
  - inversion H; subst. destruct (IH h' t eq_refl) as (-> & Hn).
    split; [reflexivity | exact Hn].
  - destruct (Ascii.eqb a c) eqn:Hac; [|discriminate].
    apply Ascii.eqb_eq in Hac. inversion H; subst.
    split; [reflexivity | exact Hs].
Qed.

Lemma split_last_none_app (c : ascii) (a b : string) :
  split_last c (a ++ b) = None <->
  split_last c a = None /\ split_last c b = None.
Proof.
  induction a as [|x a IH]; cbn [append split_last].
  - split; [intros H; split; [reflexivity | exact H] | intros [_ H]; exact H].
  - destruct (split_last c (a ++ b)) as [[h t]|] eqn:Hab.
    + split; [discriminate|]. intros [Ha Hb].
      destruct (split_last c a) as [[h' t']|] eqn:Ha'; [discriminate|].
      pose proof (proj2 IH (conj eq_refl Hb)) as Hno. discriminate.
    + destruct (proj1 IH eq_refl) as [Ha Hb]. rewrite Ha.
      destruct (Ascii.eqb x c).
      * split; [discriminate | intros [H _]; discriminate].
      * split; [intros _; split; [reflexivity | exact Hb] | reflexivity].
Qed.

Lemma basename_no_slash (p : string) : split_last "/" (basename p) = None.
Proof.
  unfold basename. destruct (split_last "/" p) as [[h t]|] eqn:Hp.
  - apply (split_last_sound "/" p h t Hp).
  - exact Hp.
Qed.

Lemma splitext_name_sound (q : string) :
  q = (fst (splitext_name q) ++ snd (splitext_name q))%string.
Proof.
  unfold splitext_name.
  destruct (split_last "." q) as [[st ext]|] eqn:Hq;
    [|cbn; rewrite TextFacts.append_nil_r; reflexivity].
  destruct (all_dots st); cbn [fst snd];
    [rewrite TextFacts.append_nil_r; reflexivity|].
  apply (split_last_sound "." q st ext Hq).
Qed.

Lemma splitext_name_stem_not_dots (q : string) :
  all_dots q = false -> all_dots (fst (splitext_name q)) = false.
Proof.
  intros Hq. unfold splitext_name.
  destruct (split_last "." q) as [[st ext]|]; [|exact Hq].
  destruct (all_dots st) eqn:Hst; [exact Hq | exact Hst].
Qed.

Lemma splitext_no_slash (q : string) :
  split_last "/" q = None -> splitext q = splitext_name q.
Proof. intros Hq. unfold splitext. rewrite Hq. reflexivity. Qed.

Lemma splitext_with_extension (name ext : string) :
  split_last "/" name = None ->
  split_last "/" ext = None ->
  split_last "." ext = None ->
  all_dots name = false ->
  splitext (name ++ String "." ext) = (name, String "." ext).
Proof.
  intros Hname Hext Hdot Hnd.
  rewrite splitext_no_slash.
  - unfold splitext_name. rewrite (split_last_at "." name ext Hdot), Hnd.
    reflexivity.
  - apply split_last_none_app. split; [exact Hname|].
    cbn [split_last]. rewrite Hext. reflexivity.
Qed.

(** X17.  The name [save_results] gives the trajectory file leads the
    summarizer back to the same video name: for an input whose file name
    is not made of dots only, with [name] the file name without its
    extension, the summarizer splits [name.csv] into [name] and [.csv] and
    pairs it with [name.mp4]; when the input is an [.mp4] file, that is
    the input's own file name. *)
Theorem trajectory_name_round_trip (video_path videos_dir : string) :
  all_dots (basename video_path) = false ->
  let name := fst (splitext (basename video_path)) in
  splitext (name ++ ".csv") = (name, ".csv")
  /\ Summary.paired_video videos_dir (name ++ ".csv")
     = join videos_dir (name ++ ".mp4")
  /\ (snd (splitext (basename video_path)) = ".mp4" ->
      Summary.paired_video videos_dir (name ++ ".csv")
      = join videos_dir (basename video_path)).
Proof.
  intros Hnd name.
  pose proof (basename_no_slash video_path) as Hbase.
  assert (Hsplit : splitext (basename video_path)
                   = splitext_name (basename video_path))
    by (apply splitext_no_slash, Hbase).
  assert (Hname : split_last "/" name = None).
  { pose proof (splitext_name_sound (basename video_path)) as Hs.
    rewrite Hs in Hbase. apply split_last_none_app in Hbase.
    unfold name. rewrite Hsplit. apply Hbase. }
  assert (Hnamed : all_dots name = false).
  { unfold name. rewrite Hsplit. apply splitext_name_stem_not_dots, Hnd. }
  assert (Hcsv : splitext (name ++ ".csv") = (name, ".csv"))
    by (apply (splitext_with_extension name "csv"); try reflexivity; assumption).
  split; [exact Hcsv|]. split.
  - unfold Summary.paired_video. rewrite Hcsv. reflexivity.
  - intros Hext. unfold Summary.paired_video. rewrite Hcsv. cbn [fst].
    f_equal. rewrite <- Hext. unfold name. rewrite Hsplit.
    symmetry. apply splitext_name_sound.
Qed.

Lemma trajectory_name_round_trip_witness :
  splitext ("fish.01" ++ ".csv") = ("fish.01", ".csv")
  /\ Summary.paired_video "/work/videos" ("fish.01" ++ ".csv")
     = "/work/videos/fish.01.mp4".
Proof.
  assert (H : all_dots (basename "/work/videos/fish.01.mp4") = false)
    by reflexivity.
  destruct (trajectory_name_round_trip "/work/videos/fish.01.mp4"
              "/work/videos" H) as (H1 & _ & H3).
  split; [exact H1 | exact (H3 eq_refl)].
Defined.

(** X18.  [get_resource_path] keeps the file name of the path it is
    given, for either base directory, and leaves an absolute path as it
    is. *)
Theorem resource_path_keeps_name (env : Pipeline.JobEnv) (p : string) :
  basename (Pipeline.get_resource_path env p) = basename p
  /\ (starts_with_slash p = true -> Pipeline.get_resource_path env p = p).
Proof.
  split; [apply TextFacts.basename_join|].
  intros Habs. unfold Pipeline.get_resource_path, join. rewrite Habs.
  reflexivity.
Qed.

Lemma resource_path_keeps_name_witness :
  Pipeline.get_resource_path Examples.one_frame_env "/work/videos/clip.avi"
  = "/work/videos/clip.avi".
Proof.
  apply (resource_path_keeps_name Examples.one_frame_env
           "/work/videos/clip.avi").
  reflexivity.
Defined.

End NamesMore.

(** ** Further properties of the per-video pipeline *)

Module PipelineMore.
Import Tracker Pipeline Notions PipelineFacts.

Lemma run_frames_good (l : list ((Z * Z) * list Contour * Z)) :
  forall j,
    run_frames (map good_read l) j
    = ret {| video_path := video_path j;
             output_dir := output_dir j;
             state := feed (state j) (map frame_of l);
             valid_frame := last_shape (valid_frame j) l |}.
Proof.
  induction l as [|[[sh cs] now] l IH]; intros j.
  - destruct j; reflexivity.
  - cbn [map good_read run_frames segmented shape read_clock].
    rewrite IH. reflexivity.
Qed.

Lemma run_frames_fault (l : list ((Z * Z) * list Contour * Z))
    (d : Decoded) (e : exn) (rest : list Decoded) :
  segmented d = Raised e ->
  forall j, run_frames (map good_read l ++ d :: rest) j = raise e.
Proof.
  intros Hd.
  induction l as [|[[sh' cs] now] l IH]; intros j;
    [cbn [map app run_frames]; rewrite Hd; reflexivity|].
  cbn [map app good_read run_frames segmented shape read_clock].
  apply IH.
Qed.

Lemma last_shape_some (l : list ((Z * Z) * list Contour * Z)) :
  l <> [] -> forall start, exists sh, last_shape start l = Some sh.
Proof.
  intros Hne. destruct l as [|r l]; [contradiction|]. clear Hne.
  revert r. induction l as [|r' l IH]; intros r start.
  - exists (fst (fst r)). reflexivity.
  - unfold last_shape. cbn [fold_left].
    apply (IH r' (Some (fst (fst r)))).
Qed.

(** X19.  [run] on an open capture processes the frames in the order
    read: when none faults, the tracker ends in the state the state
    machine reaches over all of them and [valid_frame] is the last frame
    read; the first frame on which an OpenCV call raises ends the run with
    that exception, the frames after it never being read. *)
Theorem run_until_first_fault (env : JobEnv) (j : Job)
    (l : list ((Z * Z) * list Contour * Z)) :
  cap_opened (capture env) = true ->
  (reads (capture env) = map good_read l ->
   run env j
   = ([], Returned {| video_path := video_path j;
                      output_dir := output_dir j;
                      state := feed (state j) (map frame_of l);
                      valid_frame := last_shape (valid_frame j) l |}))
  /\ (forall d e rest,
         segmented d = Raised e ->
         reads (capture env) = map good_read l ++ d :: rest ->
         run env j = ([], Raised e)).
Proof.
  intros Hopen. unfold run. rewrite Hopen. split.
  - intros ->. apply run_frames_good.
  - intros d e rest Hd ->. apply run_frames_fault, Hd.
Qed.

Lemma run_until_first_fault_witness :
  run Examples.faulty_env
      {| video_path := "v"; output_dir := "o";
         state := init 0; valid_frame := None |}
  = ([], Raised (Exn CvError "bad frame")).
Proof.
  destruct (run_until_first_fault Examples.faulty_env
              {| video_path := "v"; output_dir := "o";
                 state := init 0; valid_frame := None |}
              [((480, 640), [], 1)] eq_refl) as (_ & Hfault).
  apply (Hfault {| shape := (480, 640);
                   segmented := Raised (Exn CvError "bad frame");
                   read_clock := 2 |} _ []); reflexivity.
Defined.

(** The events of a job whose directories are created and whose frames
    are all read without fault, up to [save_results]. *)
Lemma body_after_good_run (env : JobEnv) (video output : string)
    (l : list ((Z * Z) * list Contour * Z)) :
  makedirs_data env = None ->
  makedirs_heatmaps env = None ->
  cap_opened (capture env) = true ->
  reads (capture env) = map good_read l ->
  process_video_body env video output
  = (let vp := get_resource_path env video in
     let od := get_resource_path env output in
     let j := {| video_path := vp; output_dir := od;
                 state := feed (init (clock0 env)) (map frame_of l);
                 valid_frame := last_shape None l |} in
     let '(evs, r) := save_results env j in
     ([MakeDirs (Text.join od "data"); MakeDirs (Text.join od "heatmaps")]
      ++ evs,
      match r with
      | Returned _ => Returned (success_message vp)
      | Raised e => Raised e
      end)).
Proof.
  intros Hd Hh Hopen Hreads.
  unfold process_video_body, new_tracker, run.
  rewrite Hd, Hh, Hopen, Hreads. cbn [guard emit ret bind app].
  rewrite run_frames_good. cbn [ret bind app video_path output_dir state valid_frame].
  destruct (save_results env _) as [evs [u|e]]; cbn; rewrite ?app_nil_r;
    reflexivity.
Qed.

(** X20.  A job that meets no fault (directories created, at least one
    frame read, every frame segmented, table and image written) returns
    the success message and writes exactly two files: the trajectory
    table [<out>/data/<name>.csv], holding the whole trail of the state
    machine over the frames in order, and the heatmap
    [<out>/heatmaps/<name>.png], stamped at the trail positions that lie
    inside the last frame. *)
Theorem faultless_job_writes_trail (env : JobEnv) (video output : string)
    (l : list ((Z * Z) * list Contour * Z)) :
  makedirs_data env = None ->
  makedirs_heatmaps env = None ->
  cap_opened (capture env) = true ->
  reads (capture env) = map good_read l ->
  l <> [] ->
  csv_open env = None ->
  render env = None ->
  let name := fst (Text.splitext (Text.basename video)) in
  let od := get_resource_path env output in
  let final := feed (init (clock0 env)) (map frame_of l) in
  exists evs sh,
    process_video env video output
    = (evs, Returned ("✅ Success: " ++ Text.basename video)%string)
    /\ last_shape None l = Some sh
    /\ filter is_write evs
       = [WriteCsv (Text.join (Text.join od "data") (name ++ ".csv")%string)
                   csv_header (centroid_data final);
          WriteImage (Text.join (Text.join od "heatmaps") (name ++ ".png")%string)
                     (filter (in_frame sh) (positions final))].
Proof.
  intros Hd Hh Hopen Hreads Hne Hcsv Hrender name od final.
  destruct (last_shape_some l Hne None) as (sh & Hsh).
  rewrite process_video_cases.
  rewrite (body_after_good_run env video output l Hd Hh Hopen Hreads).
  cbn zeta. unfold save_results. cbn [valid_frame]. rewrite Hsh, Hcsv, Hrender.
  cbn [guard emit ret bind app video_path output_dir state].
  do 2 eexists. split; [|split; [reflexivity|]].
  - unfold success_message. rewrite get_resource_path_basename. reflexivity.
  - cbn [filter is_write app]. rewrite ?get_resource_path_basename.
    reflexivity.
Qed.

Lemma faultless_job_writes_trail_witness :
  exists evs sh,
    process_video Examples.one_frame_env "/work/videos/clip.avi" "/work/out"
    = (evs, Returned "✅ Success: clip.avi")
    /\ last_shape None [((480, 640),
                         [ {| area := 900 # 1; rect := (10, 20, 7, 9) |} ], 1)]
       = Some sh
    /\ filter is_write evs
       = [WriteCsv "/work/out/data/clip.csv" csv_header
                   [("00:00:00:001", 13, 24)];
          WriteImage "/work/out/heatmaps/clip.png"
                     (filter (in_frame sh) [(13, 24)])].
Proof.
  apply (faultless_job_writes_trail Examples.one_frame_env
           "/work/videos/clip.avi" "/work/out"
           [((480, 640), [ {| area := 900 # 1; rect := (10, 20, 7, 9) |} ], 1)]);
    try reflexivity.
  discriminate.
Defined.

(** X21.  A job whose tracking meets a faulty frame writes no file at
    all, whatever was tracked before the fault, and returns the failure
    message with the text of that exception. *)
Theorem tracking_fault_writes_nothing (env : JobEnv) (video output : string)
    (l : list ((Z * Z) * list Contour * Z)) (d : Decoded) (e : exn)
    (rest : list Decoded) :
  makedirs_data env = None ->
  makedirs_heatmaps env = None ->
  cap_opened (capture env) = true ->
  segmented d = Raised e ->
  reads (capture env) = map good_read l ++ d :: rest ->
  process_video env video output
  = ([MakeDirs (Text.join (get_resource_path env output) "data");
      MakeDirs (Text.join (get_resource_path env output) "heatmaps")],
     Returned ("❌ Failed: " ++ Text.basename video
               ++ " with error: " ++ exn_msg e)%string).
Proof.
  intros Hd Hh Hopen Hbad Hreads.
  rewrite process_video_cases.
  unfold process_video_body, new_tracker, run.
  rewrite Hd, Hh, Hopen, Hreads. cbn [guard emit ret bind app].
  rewrite (run_frames_fault l d e rest Hbad). cbn.
  unfold failure_message. rewrite get_resource_path_basename. reflexivity.
Qed.

Lemma tracking_fault_writes_nothing_witness :
  process_video Examples.faulty_env "videos/b.mp4" "out"
  = ([MakeDirs "/work/out/data"; MakeDirs "/work/out/heatmaps"],
     Returned "❌ Failed: b.mp4 with error: bad frame").
Proof.
  apply (tracking_fault_writes_nothing Examples.faulty_env "videos/b.mp4" "out"
           [((480, 640), [], 1)]
           {| shape := (480, 640);
              segmented := Raised (Exn CvError "bad frame");
              read_clock := 2 |}
           (Exn CvError "bad frame") []);
    reflexivity.
Defined.

(** X22.  The two writes of [save_results] are not atomic.  After a
    faultless run over at least one frame: if opening the table fails,
    nothing is written; if the heatmap rendering fails, the trajectory
    table has already been written, and the job still returns the failure
    message. *)
Theorem heatmap_fault_leaves_table (env : JobEnv) (video output : string)
    (l : list ((Z * Z) * list Contour * Z)) (e : exn) :
  makedirs_data env = None ->
  makedirs_heatmaps env = None ->
  cap_opened (capture env) = true ->
  reads (capture env) = map good_read l ->
  l <> [] ->
  csv_open env = Some e \/ (csv_open env = None /\ render env = Some e) ->
  let name := fst (Text.splitext (Text.basename video)) in
  let od := get_resource_path env output in
  let final := feed (init (clock0 env)) (map frame_of l) in
  exists evs,
    process_video env video output
    = (evs, Returned ("❌ Failed: " ++ Text.basename video
                      ++ " with error: " ++ exn_msg e)%string)
    /\ filter is_write evs
       = match csv_open env with
         | Some _ => []
         | None =>
             [WriteCsv (Text.join (Text.join od "data") (name ++ ".csv")%string)
                       csv_header (centroid_data final)]
         end.
Proof.
  intros Hd Hh Hopen Hreads Hne Hfault name od final.
  destruct (last_shape_some l Hne None) as (sh & Hsh).
  rewrite process_video_cases.
  rewrite (body_after_good_run env video output l Hd Hh Hopen Hreads).
  cbn zeta. unfold save_results. cbn [valid_frame]. rewrite Hsh.
  unfold failure_message. rewrite !get_resource_path_basename.
  destruct Hfault as [Hcsv | [Hcsv Hrender]].
  - rewrite Hcsv.
    cbn [guard emit ret raise bind app video_path output_dir state].
    eexists. split; reflexivity.
  - rewrite Hcsv, Hrender.
    cbn [guard emit ret raise bind app video_path output_dir state].
    rewrite ?get_resource_path_basename.
    eexists. split; reflexivity.
Qed.

Lemma heatmap_fault_leaves_table_witness :
  exists evs,
    process_video
      {| meipass := None; cwd := "/work"; clock0 := 0;
         capture := capture Examples.one_frame_env;
         makedirs_data := None; makedirs_heatmaps := None;
         csv_open := None;
         render := Some (Exn CvError "sizes differ") |}
      "/work/videos/clip.avi" "/work/out"
    = (evs, Returned "❌ Failed: clip.avi with error: sizes differ")
    /\ filter is_write evs
       = [WriteCsv "/work/out/data/clip.csv" csv_header
                   [("00:00:00:001", 13, 24)]].
Proof.
  apply (heatmap_fault_leaves_table
           {| meipass := None; cwd := "/work"; clock0 := 0;
              capture := capture Examples.one_frame_env;
              makedirs_data := None; makedirs_heatmaps := None;
              csv_open := None;
              render := Some (Exn CvError "sizes differ") |}
           "/work/videos/clip.avi" "/work/out"
           [((480, 640), [ {| area := 900 # 1; rect := (10, 20, 7, 9) |} ], 1)]
           (Exn CvError "sizes differ"));
    try reflexivity.
  - discriminate.
  - right. split; reflexivity.
Defined.

End PipelineMore.

(** ** What a run records, and what it leaves on disk *)

Module RunFacts.
Import Pipeline Batch BatchFacts Disk.

Lemma batch_effects_records (site : Site) (output : string) (batch : list string) :
  batch_effects (run_batch site output batch)
  = map (job_record site output) (as_completed site batch).
Proof. reflexivity. Qed.

(** The effects recorded over the batches are the records of the jobs, a
    rearrangement of the records of the videos in list order. *)
Lemma effects_are_job_records (site : Site) (output : string)
    (bs : list (list string)) :
  (forall batch, Permutation (as_completed site batch) batch) ->
  Permutation (flat_map batch_effects (map (run_batch site output) bs))
              (map (job_record site output) (List.concat bs)).
Proof.
  intros Hperm. induction bs as [|b bs IH]; [constructor|].
  cbn [map flat_map List.concat]. rewrite map_app.
  apply Permutation_app; [|exact IH].
  rewrite batch_effects_records. apply Permutation_map, Hperm.
Qed.


End RunFacts.

Module DiskFacts.
Import Tracker Pipeline Batch Disk PipelineFacts.








(** *** The writes of one job *)







(** *** The names of the output files *)









End DiskFacts.

(** ** Further properties of the batch run *)

Module BatchMore.
Import Pipeline Batch BatchFacts Notions.

Lemma batch_count_bound (n k : nat) :
  (k < (n + (BATCH_SIZE - 1)) / BATCH_SIZE)%nat -> (k * BATCH_SIZE < n)%nat.
Proof.
  unfold BATCH_SIZE. intros Hk.
  pose proof (Nat.Div0.mul_div_le (n + (10 - 1)) 10) as Hle. lia.
Qed.

(** X23.  The batches partition the list of videos in order: laid end to
    end they are the list, there are ceil(n / 10) of them, and every batch
    holds at least one and at most [BATCH_SIZE] = 10 videos. *)
Theorem batches_partition (video_files : list string) :
  List.concat (batches video_files) = video_files
  /\ List.length (batches video_files)
     = ((List.length video_files + 9) / 10)%nat
  /\ Forall (fun batch => (1 <= List.length batch <= 10)%nat)
            (batches video_files).
Proof.
  split; [apply batches_concat|]. split.
  - unfold batches. rewrite length_map, length_seq. reflexivity.
  - unfold batches. apply Forall_forall. intros batch Hb.
    apply in_map_iff in Hb. destruct Hb as (k & <- & Hk).
    apply in_seq in Hk. destruct Hk as (_ & Hk). cbn [Nat.add] in Hk.
    apply batch_count_bound in Hk.
    rewrite length_firstn, length_skipn. unfold BATCH_SIZE in *. lia.
Qed.

Lemma batch_logged_length (site : Site) (output : string) (batch : list string) :
  List.length (batch_logged (run_batch site output batch))
  = (List.length (as_completed site batch) + 2)%nat.
Proof.
  cbn. rewrite length_app, !length_map. cbn. lia.
Qed.

(** X24.  In a run that finishes, with the worker pool completing every
    job of a batch once: the log receives one line per video and two per
    batch (its start and its finish), the completion line of every video
    among them; and the effects recorded are, up to order, exactly the
    events of the job of each discovered video, once each. *)
Theorem log_line_count (site : Site) (video_folder output_folder : string)
    (printed : list string) (log_filename : string) (logfile : list string)
    (effects : list (string * list Event)) :
  (forall batch, Permutation (as_completed site batch) batch) ->
  run_tracking site video_folder output_folder
  = Finished printed log_filename logfile effects ->
  let n := List.length (discover site video_folder) in
  List.length logfile = (n + 2 * ((n + 9) / 10))%nat
  /\ (forall video,
         In video (discover site video_folder) ->
         In (completion_line site output_folder video ++ Text.newline)%string
            logfile)
  /\ Permutation effects
                 (map (fun video =>
                         (video, fst (submit site output_folder video)))
                      (discover site video_folder))
  /\ log_filename
     = Text.join output_folder ("batch_log_" ++ started_at site ++ ".txt")%string.
Proof.
  intros Hperm Hrun n. unfold run_tracking in Hrun.
  destruct (negb (isdir site video_folder)); [discriminate|].
  destruct (negb (isdir site output_folder)); [discriminate|].
  fold n. destruct (discover site video_folder) as [|v vs] eqn:Hdisc;
    [discriminate|].
  inversion Hrun; subst. clear Hrun.
  assert (Hcount : forall bs : list (list string),
             List.length (flat_map batch_logged
                            (map (run_batch site output_folder) bs))
             = (List.length (List.concat bs) + 2 * List.length bs)%nat).
  { induction bs as [|b bs IH]; [reflexivity|].
    cbn [map flat_map List.concat List.length].
    rewrite !length_app, IH, batch_logged_length.
    pose proof (Permutation_length (Hperm b)) as Hb. lia. }
  assert (Hlen : List.length (batches (v :: vs))
                 = ((List.length (v :: vs) + 9) / 10)%nat)
    by (unfold batches; rewrite length_map, length_seq; reflexivity).
  pose proof (Hcount (batches (v :: vs))) as H1.
  rewrite (batches_concat (v :: vs)), Hlen in H1.
  split; [exact H1|]. split; [|split; [|reflexivity]].
  - intros video Hv.
    rewrite <- (batches_concat (v :: vs)) in Hv.
    apply in_concat in Hv. destruct Hv as (b & Hb & Hvb).
    apply (logged_line site output_folder _ b video Hb).
    apply (Permutation_in video (Permutation_sym (Hperm b))). exact Hvb.
  - rewrite <- (batches_concat (v :: vs)) at 2.
    apply (RunFacts.effects_are_job_records site output_folder _ Hperm).
Qed.

Lemma log_line_count_witness :
  exists printed log_filename logfile effects,
    run_tracking Examples.three_jobs "videos" "out"
    = Finished printed log_filename logfile effects
    /\ List.length logfile = 5%nat
    /\ Permutation effects
         (map (fun video => (video, fst (submit Examples.three_jobs "out" video)))
              ["videos/a.mp4"; "videos/b.mp4"; "videos/c.mp4"]).
Proof.
  assert (Hperm : forall batch,
             Permutation (as_completed Examples.three_jobs batch) batch)
    by (intros batch; apply Permutation_sym, Permutation_rev).
  do 4 eexists. split; [reflexivity|].
  destruct (log_line_count Examples.three_jobs "videos" "out" _ _ _ _
              Hperm eq_refl) as (H1 & _ & H2 & _).
  split; [exact H1 | exact H2].
Defined.

(** *** Discovery *)

Lemma insert_sorted_perm (s : string) (l : list string) :
  Permutation (insert_sorted s l) (s :: l).
Proof.
  induction l as [|h t IH]; cbn [insert_sorted]; [reflexivity|].
  destruct (String.leb s h); [reflexivity|].
  rewrite IH. apply perm_swap.
Qed.

Lemma sorted_perm (l : list string) : Permutation (sorted l) l.
Proof.
  induction l as [|s l IH]; [reflexivity|].
  cbn [sorted fold_right]. fold (sorted l).
  rewrite insert_sorted_perm, IH. reflexivity.
Qed.

Lemma insert_sorted_hd (s a : string) (l : list string) :
  string_le a s -> HdRel string_le a l -> HdRel string_le a (insert_sorted s l).
Proof.
  intros Has Hl. destruct l as [|h t]; cbn [insert_sorted].
  - constructor. exact Has.
  - destruct (String.leb s h); constructor; [exact Has|].
    inversion Hl. assumption.
Qed.

Lemma insert_sorted_sorted (s : string) (l : list string) :
  Sorted string_le l -> Sorted string_le (insert_sorted s l).
Proof.
  induction 1 as [|h t Ht IH Hh]; cbn [insert_sorted].
  - repeat constructor.
  - destruct (String.leb s h) eqn:Hsh.
    + constructor; [constructor; assumption | constructor; exact Hsh].
    + constructor; [exact IH|].
      apply insert_sorted_hd; [|exact Hh].
      destruct (String.leb_total s h) as [H|H]; [congruence | exact H].
Qed.

Lemma sorted_sorted (l : list string) : Sorted string_le (sorted l).
Proof.
  induction l as [|s l IH]; [constructor|].
  cbn [sorted fold_right]. fold (sorted l).
  apply insert_sorted_sorted, IH.
Qed.

(** *** Recognised extensions *)

Lemma prefix_iff (a b : string) :
  String.prefix a b = true <-> exists c, b = (a ++ c)%string.
Proof.
  revert b. induction a as [|x a IH]; intros b.
  - split; [intros _; exists b; reflexivity | intros _; destruct b; reflexivity].
  - destruct b as [|y b]; cbn [String.prefix].
    + split; [discriminate | intros (c & H); discriminate].
    + destruct (Ascii.ascii_dec x y) as [->|Hxy].
      * rewrite IH. split; intros (c & H); exists c.
        -- cbn. rewrite H. reflexivity.
        -- cbn in H. inversion H. reflexivity.
      * split; [discriminate|]. intros (c & H). cbn in H. congruence.
Qed.

Lemma endswith_iff (s suffix : string) :
  Text.endswith s suffix = true <-> exists pre, s = (pre ++ suffix)%string.
Proof.
  unfold Text.endswith. rewrite prefix_iff. split.
  - intros (c & H). exists (Text.rev_string c).
    rewrite <- (TextFacts.rev_string_involutive s), H,
      TextFacts.rev_string_app, TextFacts.rev_string_involutive.
    reflexivity.
  - intros (pre & ->). exists (Text.rev_string pre).
    apply TextFacts.rev_string_app.
Qed.

Lemma lower_app (a b : string) :
  Text.lower (a ++ b) = (Text.lower a ++ Text.lower b)%string.
Proof. induction a as [|x a IH]; cbn; [|rewrite IH]; reflexivity. Qed.

Lemma lower_split (a b : string) :
  forall s,
    Text.lower s = (a ++ b)%string ->
    exists s1 s2, s = (s1 ++ s2)%string /\ Text.lower s1 = a /\ Text.lower s2 = b.
Proof.
  induction a as [|x a IH]; intros s H.
  - exists EmptyString, s. repeat split. exact H.
  - destruct s as [|c s]; [discriminate|].
    cbn in H. inversion H as [[Hc Hs]].
    destruct (IH s Hs) as (s1 & s2 & -> & H1 & H2).
    exists (String c s1), s2. cbn. rewrite H1. repeat split. exact H2.
Qed.

(** A name is recognised exactly when it ends with an extension that,
    with its ASCII letters put in lower case, is [.mp4], [.avi] or
    [.mov]. *)
Lemma is_video_name_iff (f : string) :
  is_video_name f = true
  <-> exists pre ext,
        f = (pre ++ ext)%string
        /\ (Text.lower ext = ".mp4" \/ Text.lower ext = ".avi"
            \/ Text.lower ext = ".mov").
Proof.
  unfold is_video_name. cbn zeta. rewrite !orb_true_iff, !endswith_iff. split.
  - intros [[(p & H)|(p & H)]|(p & H)];
      destruct (lower_split _ _ _ H) as (s1 & s2 & -> & _ & H2);
      exists s1, s2; (split; [reflexivity|]); tauto.
  - intros (pre & ext & -> & [H|[H|H]]); rewrite lower_app, H;
      [left; left | left; right | right]; eexists; reflexivity.
Qed.

(** X25.  Discovery returns the files of the input folder whose name ends
    with an extension that is [.mp4], [.avi] or [.mov] once its ASCII
    letters are put in lower case, and nothing else: each such file once
    per listing entry, joined to the folder, in ascending order of the
    paths. *)
Theorem discover_recognised_sorted (site : Site) (video_folder : string) :
  Permutation (discover site video_folder)
              (map (Text.join video_folder)
                   (filter is_video_name (listdir site video_folder)))
  /\ Sorted string_le (discover site video_folder)
  /\ forall v,
       In v (discover site video_folder)
       <-> exists pre ext,
             In (pre ++ ext)%string (listdir site video_folder)
             /\ (Text.lower ext = ".mp4" \/ Text.lower ext = ".avi"
                 \/ Text.lower ext = ".mov")
             /\ v = Text.join video_folder (pre ++ ext).
Proof.
  split; [apply sorted_perm|]. split; [apply sorted_sorted|].
  intros v. split.
  - intros Hv. apply (Permutation_in v (sorted_perm _)) in Hv.
    apply in_map_iff in Hv. destruct Hv as (f & <- & Hf).
    apply filter_In in Hf. destruct Hf as (Hf & Hvid).
    apply is_video_name_iff in Hvid. destruct Hvid as (pre & ext & -> & Hext).
    exists pre, ext. repeat split; assumption.
  - intros (pre & ext & Hf & Hext & ->).
    apply (Permutation_in _ (Permutation_sym (sorted_perm _))).
    apply in_map, filter_In. split; [exact Hf|].
    apply is_video_name_iff. exists pre, ext. split; [reflexivity | exact Hext].
Qed.

End BatchMore.

(** ** Claim on the isolation of the jobs of a run *)

Module IsolationClaims.
Import Tracker Pipeline Batch Disk PipelineFacts RunFacts DiskFacts.




End IsolationClaims.
